(** * The account ledger of shop_bot/data_manager/database.py

    A shallow embedding of the SQLite-backed ledger: the [users] and
    [transactions] tables, the balance operations, user registration with
    its referral back-fill, and the transaction recorder.

    Modelling conventions.
    - Every Python function opens a connection, runs its statements and
      commits; it becomes a function from the store [db] to the new store
      and the returned value.  The store is assumed reachable: the
      [except sqlite3.Error] branches are modelled only where a statement
      of the function itself can raise (the UNIQUE constraint on
      [payment_id]).
    - [REAL] columns and Python [float] arguments are exact rationals [Q]:
      the development is about which rows an operation reads and writes
      and under which test, not about binary64 rounding, infinities or
      NaN.  [REAL] columns hold numbers (never NULL); [referred_by] is
      the one column whose NULL the code tests, so it is a [sql_value].
    - The clock ([datetime.now()], [CURRENT_TIMESTAMP]) is an explicit
      argument [now].
    - The untyped [referrer_id] argument is an [int] or [None]. *)

From Stdlib Require Import ZArith QArith Lqa String Ascii List DecimalString
  Sorted.
From stdpp Require Import base gmap strings list.

Local Open Scope Q_scope.

(** ** SQLite values and Python helpers *)

(** A value of the loosely typed [referred_by INTEGER] column: SQLite
    keeps a text that is not a number as text. *)
Inductive sql_value :=
| SqlNull
| SqlInt (n : Z)
| SqlText (s : string).

(** [x is None] on a fetched column. *)
Definition is_none (v : sql_value) : bool :=
  match v with SqlNull => true | _ => false end.

(** [str(x)] for a fetched column that is not [None]; [str(None)] is the
    text [None]. *)
Definition py_str (v : sql_value) : string :=
  match v with
  | SqlNull => "None"
  | SqlInt n => NilZero.string_of_int (Z.to_int n)
  | SqlText s => s
  end.

(** The ASCII characters [str.isspace] accepts: tab to carriage return,
    the four separators 28 to 31, and the space.  Strings are byte
    strings; white space outside ASCII is not recognised. *)
Definition py_isspace (c : ascii) : bool :=
  let n := nat_of_ascii c in
  ((9 <=? n)%nat && (n <=? 13)%nat) || ((28 <=? n)%nat && (n <=? 32)%nat).

Fixpoint py_lstrip (s : string) : string :=
  match s with
  | EmptyString => EmptyString
  | String c s' => if py_isspace c then py_lstrip s' else s
  end.

Fixpoint py_rstrip (s : string) : string :=
  match s with
  | EmptyString => EmptyString
  | String c s' =>
      match py_rstrip s' with
      | EmptyString => if py_isspace c then EmptyString else String c EmptyString
      | r => String c r
      end
  end.

(** [s.strip()] *)
Definition py_strip (s : string) : string := py_rstrip (py_lstrip s).

(** Truth value of the [referrer_id] argument, an [int] or [None]. *)
Definition py_truthy (x : option Z) : bool :=
  match x with
  | None => false
  | Some n => negb (n =? 0)%Z
  end.

(** The value bound to a [?] for an [int]-or-[None] argument. *)
Definition sql_of_arg (x : option Z) : sql_value :=
  match x with
  | None => SqlNull
  | Some n => SqlInt n
  end.

(** [x < y] on amounts. *)
Definition Qlt_bool (x y : Q) : bool :=
  (Qnum x * QDen y <? Qnum y * QDen x)%Z.

(** ** The store *)

(** A row of [users]; the primary key [telegram_id] is the key of the
    table. *)
Record user_row := mk_user {
  username : string;
  total_spent : Q;
  total_months : Z;
  trial_used : bool;
  agreed_to_terms : bool;
  registration_date : Z;
  is_banned : bool;
  balance : Q;
  referred_by : sql_value;
  referral_balance : Q;
  referral_balance_all : Q;
  referral_start_bonus_received : bool
}.

(** A row of [transactions]. *)
Record transaction_row := mk_transaction {
  tx_username : option string;
  transaction_id : Z;
  payment_id : string;
  user_id : Z;
  status : string;
  amount_rub : Q;
  amount_currency : option Q;
  currency_name : option string;
  payment_method : option string;
  metadata : string;
  created_date : Z
}.

(** The database file: both tables, and the AUTOINCREMENT counter that
    SQLite keeps for [transactions] in [sqlite_sequence]. *)
Record db := mk_db {
  users : gmap Z user_row;
  transactions : list transaction_row;
  transactions_seq : N
}.

Definition with_users (us : gmap Z user_row) (d : db) : db :=
  mk_db us (transactions d) (transactions_seq d).

Definition with_transactions (ts : list transaction_row) (d : db) : db :=
  mk_db (users d) ts (transactions_seq d).

(** *** Column assignments on a [users] row *)

Definition set_username (v : string) (r : user_row) : user_row :=
  mk_user v (total_spent r) (total_months r) (trial_used r)
    (agreed_to_terms r) (registration_date r) (is_banned r) (balance r)
    (referred_by r) (referral_balance r) (referral_balance_all r)
    (referral_start_bonus_received r).

Definition set_stats (spent : Q) (months : Z) (r : user_row) : user_row :=
  mk_user (username r) spent months (trial_used r)
    (agreed_to_terms r) (registration_date r) (is_banned r) (balance r)
    (referred_by r) (referral_balance r) (referral_balance_all r)
    (referral_start_bonus_received r).

Definition set_trial_used_col (v : bool) (r : user_row) : user_row :=
  mk_user (username r) (total_spent r) (total_months r) v
    (agreed_to_terms r) (registration_date r) (is_banned r) (balance r)
    (referred_by r) (referral_balance r) (referral_balance_all r)
    (referral_start_bonus_received r).

Definition set_agreed_to_terms (v : bool) (r : user_row) : user_row :=
  mk_user (username r) (total_spent r) (total_months r) (trial_used r)
    v (registration_date r) (is_banned r) (balance r)
    (referred_by r) (referral_balance r) (referral_balance_all r)
    (referral_start_bonus_received r).

Definition set_is_banned (v : bool) (r : user_row) : user_row :=
  mk_user (username r) (total_spent r) (total_months r) (trial_used r)
    (agreed_to_terms r) (registration_date r) v (balance r)
    (referred_by r) (referral_balance r) (referral_balance_all r)
    (referral_start_bonus_received r).

Definition set_balance_col (v : Q) (r : user_row) : user_row :=
  mk_user (username r) (total_spent r) (total_months r) (trial_used r)
    (agreed_to_terms r) (registration_date r) (is_banned r) v
    (referred_by r) (referral_balance r) (referral_balance_all r)
    (referral_start_bonus_received r).

Definition set_referred_by (v : sql_value) (r : user_row) : user_row :=
  mk_user (username r) (total_spent r) (total_months r) (trial_used r)
    (agreed_to_terms r) (registration_date r) (is_banned r) (balance r)
    v (referral_balance r) (referral_balance_all r)
    (referral_start_bonus_received r).

Definition set_referral_balance_col (v : Q) (r : user_row) : user_row :=
  mk_user (username r) (total_spent r) (total_months r) (trial_used r)
    (agreed_to_terms r) (registration_date r) (is_banned r) (balance r)
    (referred_by r) v (referral_balance_all r)
    (referral_start_bonus_received r).

Definition set_referral_balance_all_col (v : Q) (r : user_row) : user_row :=
  mk_user (username r) (total_spent r) (total_months r) (trial_used r)
    (agreed_to_terms r) (registration_date r) (is_banned r) (balance r)
    (referred_by r) (referral_balance r) v
    (referral_start_bonus_received r).

Definition set_bonus_received (v : bool) (r : user_row) : user_row :=
  mk_user (username r) (total_spent r) (total_months r) (trial_used r)
    (agreed_to_terms r) (registration_date r) (is_banned r) (balance r)
    (referred_by r) (referral_balance r) (referral_balance_all r) v.

(** *** Statements on [users] *)

(** [SELECT ... FROM users WHERE telegram_id = ?] followed by
    [fetchone()]. *)
Definition select_user (uid : Z) (d : db) : option user_row :=
  users d !! uid.

(** [UPDATE users SET ... WHERE telegram_id = ?]: the new store and
    [cursor.rowcount]. *)
Definition update_users (uid : Z) (f : user_row -> user_row) (d : db)
  : db * Z :=
  match users d !! uid with
  | Some r => (with_users (<[uid := f r]> (users d)) d, 1%Z)
  | None => (d, 0%Z)
  end.

(** The row that [INSERT INTO users (telegram_id, username,
    registration_date, referred_by)] creates: the other columns take
    their DEFAULT 0. *)
Definition new_user_row (uname : string) (now : Z) (ref : sql_value)
  : user_row :=
  mk_user uname 0 0%Z false false now false 0 ref 0 0 false.

(** ** Registration and the referral link *)

(** [int(referrer_id)]; the code evaluates it only behind the truth test
    of [referrer_id], so never on [None]. *)
Definition py_int (x : option Z) : Z :=
  match x with
  | Some n => n
  | None => 0%Z
  end.

(** The test [current_ref is None or str(current_ref).strip() == ""]:
    the referral column of the row is empty. *)
Definition referral_unset (current_ref : sql_value) : bool :=
  is_none current_ref || String.eqb (py_strip (py_str current_ref)) "".

Definition register_user_if_not_exists
    (now telegram_id : Z) (uname : string) (referrer_id : option Z) (d : db)
  : db :=
  match select_user telegram_id d with
  | None =>
      with_users
        (<[telegram_id := new_user_row uname now (sql_of_arg referrer_id)]>
           (users d)) d
  | Some row =>
      let d1 := fst (update_users telegram_id (set_username uname) d) in
      let current_ref := referred_by row in
      if py_truthy referrer_id
         && referral_unset current_ref
         && negb (py_int referrer_id =? telegram_id)%Z
      then
        fst (update_users telegram_id
               (set_referred_by (SqlInt (py_int referrer_id))) d1)
      else d1
  end.

Definition set_referral_start_bonus_received (uid : Z) (d : db) : db * bool :=
  let '(d', rowcount) := update_users uid (set_bonus_received true) d in
  (d', (0 <? rowcount)%Z).

(** ** Balance operations *)

Definition add_to_referral_balance (uid : Z) (amount : Q) (d : db) : db :=
  fst (update_users uid
         (fun r => set_referral_balance_col (referral_balance r + amount) r) d).

Definition set_referral_balance (uid : Z) (value : Q) (d : db) : db :=
  fst (update_users uid (set_referral_balance_col value) d).

Definition set_referral_balance_all (uid : Z) (value : Q) (d : db) : db :=
  fst (update_users uid (set_referral_balance_all_col value) d).

Definition add_to_referral_balance_all (uid : Z) (amount : Q) (d : db) : db :=
  fst (update_users uid
         (fun r =>
            set_referral_balance_all_col (referral_balance_all r + amount) r)
         d).

(** The getters answer [0.0] for a user without a row. *)
Definition get_referral_balance_all (uid : Z) (d : db) : Q :=
  match select_user uid d with
  | Some row => referral_balance_all row
  | None => 0
  end.

Definition get_referral_balance (uid : Z) (d : db) : Q :=
  match select_user uid d with
  | Some result => referral_balance result
  | None => 0
  end.

Definition get_balance (uid : Z) (d : db) : Q :=
  match select_user uid d with
  | Some result => balance result
  | None => 0
  end.

(** [COALESCE(balance, 0)] is [balance], the column holding a number. *)
Definition adjust_user_balance (uid : Z) (delta : Q) (d : db) : db * bool :=
  let '(d', rowcount) :=
    update_users uid (fun r => set_balance_col (balance r + delta) r) d in
  (d', (0 <? rowcount)%Z).

Definition set_balance (uid : Z) (value : Q) (d : db) : db * bool :=
  let '(d', rowcount) := update_users uid (set_balance_col value) d in
  (d', (0 <? rowcount)%Z).

Definition add_to_balance (uid : Z) (amount : Q) (d : db) : db * bool :=
  let '(d', rowcount) :=
    update_users uid (fun r => set_balance_col (balance r + amount) r) d in
  (d', (0 <? rowcount)%Z).

(** [BEGIN IMMEDIATE], read, test, then write and commit or roll back: one
    step of the store. *)
Definition deduct_from_balance (uid : Z) (amount : Q) (d : db) : db * bool :=
  if Qle_bool amount 0 then (d, true)
  else
    let row := select_user uid d in
    let current := match row with Some r => balance r | None => 0 end in
    if Qlt_bool current amount then (d, false)
    else
      (fst (update_users uid
              (fun r => set_balance_col (balance r - amount) r) d),
       true).

Definition deduct_from_referral_balance (uid : Z) (amount : Q) (d : db)
  : db * bool :=
  if Qle_bool amount 0 then (d, true)
  else
    let row := select_user uid d in
    let current :=
      match row with Some r => referral_balance r | None => 0 end in
    if Qlt_bool current amount then (d, false)
    else
      (fst (update_users uid
              (fun r =>
                 set_referral_balance_col (referral_balance r - amount) r) d),
       true).

(** ** The other writers of [users] *)

Definition set_terms_agreed (telegram_id : Z) (d : db) : db :=
  fst (update_users telegram_id (set_agreed_to_terms true) d).

Definition update_user_stats
    (telegram_id : Z) (amount_spent : Q) (months_purchased : Z) (d : db)
  : db :=
  fst (update_users telegram_id
         (fun r =>
            set_stats (total_spent r + amount_spent)
              (total_months r + months_purchased)%Z r) d).

Definition set_trial_used (telegram_id : Z) (d : db) : db :=
  fst (update_users telegram_id (set_trial_used_col true) d).

Definition ban_user (telegram_id : Z) (d : db) : db :=
  fst (update_users telegram_id (set_is_banned true) d).

Definition unban_user (telegram_id : Z) (d : db) : db :=
  fst (update_users telegram_id (set_is_banned false) d).

Definition set_trial_status (uid : Z) (status : bool) (d : db) : db * bool :=
  let '(d', rowcount) :=
    update_users uid (set_trial_used_col (if status then true else false)) d in
  (d', (0 <? rowcount)%Z).

(** ** The transaction recorder *)

Inductive sqlite_error := IntegrityError.

(** The largest [transaction_id] of a table that has a row [t]. *)
Definition largest_rowid (t : transaction_row) (ts : list transaction_row)
  : Z :=
  fold_left Z.max (map transaction_id ts) (transaction_id t).

(** The rowid SQLite gives an inserted row of an AUTOINCREMENT table: one
    more than the largest present (1 in an empty table), and more than
    every rowid the table ever had. *)
Definition new_rowid (d : db) : Z :=
  let v :=
    match transactions d with
    | [] => 1%Z
    | t :: ts => (largest_rowid t ts + 1)%Z
    end in
  Z.max v (Z.of_N (transactions_seq d) + 1).

(** [INSERT INTO transactions (...)] under [payment_id TEXT UNIQUE NOT
    NULL]: the constraint is checked by the statement; the result is the
    new store and [cursor.lastrowid]. *)
Definition insert_transaction (row : Z -> transaction_row) (d : db)
  : sqlite_error + db * Z :=
  let rowid := new_rowid d in
  if existsb (fun t => String.eqb (payment_id t) (payment_id (row rowid)))
       (transactions d)
  then inl IntegrityError
  else inr (mk_db (users d) (transactions d ++ [row rowid])
              (Z.to_N rowid), rowid).

Section TransactionRecorder.

(** [json.dumps] and [json.loads] on the metadata dictionaries. *)
Context {dict : Type}.
Variable json_dumps : dict -> string.
Variable json_loads : string -> dict.

Definition create_pending_transaction
    (now : Z) (pid : string) (uid : Z) (amount : Q) (meta : dict) (d : db)
  : db * Z :=
  match
    insert_transaction
      (fun rowid =>
         mk_transaction None rowid pid uid "pending" amount None None None
           (json_dumps meta) now) d
  with
  | inr (d', lastrowid) => (d', lastrowid)
  | inl _ => (d, 0%Z)
  end.

(** The row assignment of the UPDATE in
    [find_and_complete_ton_transaction]. *)
Definition mark_paid_ton (amount_ton : Q) (t : transaction_row)
  : transaction_row :=
  mk_transaction (tx_username t) (transaction_id t) (payment_id t)
    (user_id t) "paid" (amount_rub t) (Some amount_ton) (Some "TON"%string)
    (Some "TON"%string) (metadata t) (created_date t).

Definition find_and_complete_ton_transaction
    (pid : string) (amount_ton : Q) (d : db) : db * option dict :=
  match
    find (fun t => String.eqb (payment_id t) pid
                   && String.eqb (status t) "pending") (transactions d)
  with
  | None => (d, None)
  | Some transaction =>
      (with_transactions
         (map (fun t => if String.eqb (payment_id t) pid
                        then mark_paid_ton amount_ton t else t)
            (transactions d)) d,
       Some (json_loads (metadata transaction)))
  end.

End TransactionRecorder.

(** ** Calls and call sequences *)

(** One call of a function of database.py that writes [users]. *)
Inductive call :=
| CallRegisterUserIfNotExists
    (now telegram_id : Z) (uname : string) (referrer_id : option Z)
| CallSetReferralStartBonusReceived (uid : Z)
| CallAddToReferralBalance (uid : Z) (amount : Q)
| CallSetReferralBalance (uid : Z) (value : Q)
| CallSetReferralBalanceAll (uid : Z) (value : Q)
| CallAddToReferralBalanceAll (uid : Z) (amount : Q)
| CallAdjustUserBalance (uid : Z) (delta : Q)
| CallSetBalance (uid : Z) (value : Q)
| CallAddToBalance (uid : Z) (amount : Q)
| CallDeductFromBalance (uid : Z) (amount : Q)
| CallDeductFromReferralBalance (uid : Z) (amount : Q)
| CallSetTermsAgreed (telegram_id : Z)
| CallUpdateUserStats (telegram_id : Z) (amount_spent : Q) (months : Z)
| CallSetTrialUsed (telegram_id : Z)
| CallBanUser (telegram_id : Z)
| CallUnbanUser (telegram_id : Z)
| CallSetTrialStatus (uid : Z) (status : bool).

(** The store after a call. *)
Definition run_call (c : call) (d : db) : db :=
  match c with
  | CallRegisterUserIfNotExists now tid uname ref =>
      register_user_if_not_exists now tid uname ref d
  | CallSetReferralStartBonusReceived uid =>
      fst (set_referral_start_bonus_received uid d)
  | CallAddToReferralBalance uid amount => add_to_referral_balance uid amount d
  | CallSetReferralBalance uid value => set_referral_balance uid value d
  | CallSetReferralBalanceAll uid value => set_referral_balance_all uid value d
  | CallAddToReferralBalanceAll uid amount =>
      add_to_referral_balance_all uid amount d
  | CallAdjustUserBalance uid delta => fst (adjust_user_balance uid delta d)
  | CallSetBalance uid value => fst (set_balance uid value d)
  | CallAddToBalance uid amount => fst (add_to_balance uid amount d)
  | CallDeductFromBalance uid amount => fst (deduct_from_balance uid amount d)
  | CallDeductFromReferralBalance uid amount =>
      fst (deduct_from_referral_balance uid amount d)
  | CallSetTermsAgreed tid => set_terms_agreed tid d
  | CallUpdateUserStats tid spent months =>
      update_user_stats tid spent months d
  | CallSetTrialUsed tid => set_trial_used tid d
  | CallBanUser tid => ban_user tid d
  | CallUnbanUser tid => unban_user tid d
  | CallSetTrialStatus uid status => fst (set_trial_status uid status d)
  end.

Definition run_calls (cs : list call) (d : db) : db :=
  fold_left (fun d' c => run_call c d') cs d.

(** Unfolds the calls that are one UPDATE statement. *)
Ltac as_update :=
  unfold set_referral_start_bonus_received, add_to_referral_balance,
    set_referral_balance, set_referral_balance_all,
    add_to_referral_balance_all, adjust_user_balance, set_balance,
    add_to_balance, set_terms_agreed, update_user_stats, set_trial_used,
    ban_user, unban_user, set_trial_status.

(** The calls that may lower [referral_balance_all]: the setter, and the
    adder given a negative amount. *)
Definition keeps_lifetime_earnings (c : call) : Prop :=
  match c with
  | CallSetReferralBalanceAll _ _ => False
  | CallAddToReferralBalanceAll _ amount => 0 <= amount
  | _ => True
  end.

(** *** Credits and debits on one account *)













(** ** Sample stores *)

Definition empty_db : db := mk_db ∅ [] 0%N.

(** A store with the one user 1, holding the given three balances and
    referral link. *)
Definition one_user_db (bal ref_bal ref_all : Q) (ref : sql_value) : db :=
  mk_db
    {[ 1%Z := mk_user "alice" 0 0%Z false false 0%Z false bal ref ref_bal
                ref_all false ]}
    [] 0%N.


(** A store whose one transaction, payment [P1], is pending. *)
Definition pending_db : db :=
  mk_db ∅
    [mk_transaction None 1%Z "P1" 1%Z "pending" 500 None None None "{}" 0%Z]
    1%N.

(** ** Queries and bookkeeping on [users] *)

(** [SELECT COUNT( * ) FROM users]. *)
Definition get_user_count (d : db) : Z := Z.of_nat (size (users d)).

(** The SQL comparison [referred_by = ?] with an integer bound to [?]:
    NULL and text compare unequal to every integer. *)
Definition sql_eq_int (v : sql_value) (n : Z) : bool :=
  match v with
  | SqlInt m => (m =? n)%Z
  | _ => false
  end.

(** [SELECT COUNT( * ) FROM users WHERE referred_by = ?]. *)
Definition get_referral_count (uid : Z) (d : db) : Z :=
  Z.of_nat
    (size (filter (fun kr : Z * user_row =>
                     sql_eq_int (referred_by (snd kr)) uid = true) (users d))).


(** The user a call names. *)
Definition call_target (c : call) : Z :=
  match c with
  | CallRegisterUserIfNotExists _ tid _ _ => tid
  | CallSetReferralStartBonusReceived uid
  | CallAddToReferralBalance uid _
  | CallSetReferralBalance uid _
  | CallSetReferralBalanceAll uid _
  | CallAddToReferralBalanceAll uid _
  | CallAdjustUserBalance uid _
  | CallSetBalance uid _
  | CallAddToBalance uid _
  | CallDeductFromBalance uid _
  | CallDeductFromReferralBalance uid _
  | CallSetTermsAgreed uid
  | CallUpdateUserStats uid _ _
  | CallSetTrialUsed uid
  | CallBanUser uid
  | CallUnbanUser uid
  | CallSetTrialStatus uid _ => uid
  end.

Definition is_registration (c : call) : bool :=
  match c with
  | CallRegisterUserIfNotExists _ _ _ _ => true
  | _ => false
  end.

(** ** More of the transaction recorder *)

(** [INSERT INTO transactions] with every column given, as
    [log_transaction] issues it.  [transaction_id] is an integer, or
    [None] for the next AUTOINCREMENT id; a [payment_id] of [None] breaks
    NOT NULL, a [payment_id] or a [transaction_id] already in the table
    breaks UNIQUE or PRIMARY KEY, and the function logs the error and
    returns; an explicit id above the counter raises the counter. *)
Definition log_transaction
    (now : Z) (uname : string) (tid : option Z) (pid : option string)
    (uid : Z) (st : string) (amount : Q) (amount_cur : option Q)
    (cur_name : option string) (method : string) (meta : string) (d : db)
  : db :=
  match pid with
  | None => d
  | Some p =>
      let rowid := match tid with Some n => n | None => new_rowid d end in
      if existsb (fun t => String.eqb (payment_id t) p) (transactions d)
         || existsb (fun t => (transaction_id t =? rowid)%Z) (transactions d)
      then d
      else
        mk_db (users d)
          (transactions d ++
             [mk_transaction (Some uname) rowid p uid st amount amount_cur
                cur_name (Some method) meta now])
          (N.max (transactions_seq d) (Z.to_N rowid))
  end.



(** What the schema of [transactions] promises: [payment_id] is UNIQUE,
    [transaction_id] is the PRIMARY KEY, and no id is above the
    AUTOINCREMENT counter. *)
Definition transactions_wf (d : db) : Prop :=
  NoDup (map payment_id (transactions d))
  /\ NoDup (map transaction_id (transactions d))
  /\ Forall (fun t => (transaction_id t <= Z.of_N (transactions_seq d))%Z)
       (transactions d).

(** ** Host names

    A Python [str] is a list of code points. *)

(** [str.isspace] on one code point. *)
Definition unicode_isspace (c : Z) : bool :=
  ((9 <=? c) && (c <=? 13))%Z || ((28 <=? c) && (c <=? 32))%Z
  || (c =? 133)%Z || (c =? 160)%Z || (c =? 5760)%Z
  || ((8192 <=? c) && (c <=? 8202))%Z
  || (c =? 8232)%Z || (c =? 8233)%Z || (c =? 8239)%Z || (c =? 8287)%Z
  || (c =? 12288)%Z.

Fixpoint str_lstrip (s : list Z) : list Z :=
  match s with
  | [] => []
  | c :: s' => if unicode_isspace c then str_lstrip s' else s
  end.

Fixpoint str_rstrip (s : list Z) : list Z :=
  match s with
  | [] => []
  | c :: s' =>
      match str_rstrip s' with
      | [] => if unicode_isspace c then [] else [c]
      | r => c :: r
      end
  end.

(** [s.strip()]. *)
Definition str_strip (s : list Z) : list Z := str_rstrip (str_lstrip s).

(** [s.replace(ch, "")] for a one-character [ch]. *)
Definition str_remove (ch : Z) (s : list Z) : list Z :=
  List.filter (fun c => negb (c =? ch)%Z) s.

(** NBSP, ZERO WIDTH SPACE, ZWNJ, ZWJ and BOM. *)
Definition invisible_chars : list Z := [160; 8203; 8204; 8205; 65279]%Z.

Definition normalize_host_name (name : option (list Z)) : list Z :=
  let s := str_strip (match name with Some n => n | None => [] end) in
  fold_left (fun s' ch => str_remove ch s') invisible_chars s.

(** ** The [vpn_keys] table

    Instants are whole microseconds.  The [expiry_date] column is read
    the way [get_subscription_stats] reads it: the instant
    [datetime.fromisoformat] returns, or [None] where it raises (NULL, a
    text that is no date). *)

Record key_row := mk_key {
  key_id : Z;
  key_user_id : Z;
  key_host_name : list Z;
  xui_client_uuid : string;
  key_email : string;
  expiry_date : option Z;
  key_created_date : Z
}.

(** The table and its AUTOINCREMENT counter. *)
Record keys_table := mk_keys {
  vpn_keys : list key_row;
  vpn_keys_seq : N
}.

(** The id of an inserted key, by the rule of [new_rowid]. *)
Definition new_key_id (k : keys_table) : Z :=
  let v :=
    match vpn_keys k with
    | [] => 1%Z
    | r :: rs => (fold_left Z.max (map key_id rs) (key_id r) + 1)%Z
    end in
  Z.max v (Z.of_N (vpn_keys_seq k) + 1).

(** [datetime.fromtimestamp(ms / 1000)], for a whole number of
    milliseconds. *)
Definition datetime_of_ms (ms : Z) : Z := (ms * 1000)%Z.

(** The INSERT meets [key_email TEXT NOT NULL UNIQUE]; on the error the
    function returns [None]. *)
Definition add_new_key
    (now uid : Z) (host : list Z) (uuid email : string)
    (expiry_timestamp_ms : Z) (k : keys_table) : keys_table * option Z :=
  let new_id := new_key_id k in
  if existsb (fun r => String.eqb (key_email r) email) (vpn_keys k)
  then (k, None)
  else
    (mk_keys
       (vpn_keys k ++
          [mk_key new_id uid host uuid email
             (Some (datetime_of_ms expiry_timestamp_ms)) now])
       (Z.to_N new_id),
     Some new_id).

(** [DELETE FROM vpn_keys WHERE ...]: the rows left and
    [cursor.rowcount]. *)
Definition delete_keys (p : key_row -> bool) (k : keys_table)
  : keys_table * Z :=
  (mk_keys (List.filter (fun r => negb (p r)) (vpn_keys k)) (vpn_keys_seq k),
   Z.of_nat (length (List.filter p (vpn_keys k)))).

Definition delete_key_by_email (email : string) (k : keys_table)
  : keys_table * bool :=
  let '(k', affected) :=
    delete_keys (fun r => String.eqb (key_email r) email) k in
  (k', (0 <? affected)%Z).

Definition delete_key_by_id (id : Z) (k : keys_table) : keys_table * bool :=
  let '(k', affected) := delete_keys (fun r => (key_id r =? id)%Z) k in
  (k', (0 <? affected)%Z).

Definition delete_user_keys (uid : Z) (k : keys_table) : keys_table :=
  fst (delete_keys (fun r => (key_user_id r =? uid)%Z) k).

(** [ORDER BY key_id]. *)
Fixpoint insert_by_key_id (x : key_row) (l : list key_row) : list key_row :=
  match l with
  | [] => [x]
  | y :: l' =>
      if (key_id x <=? key_id y)%Z then x :: l
      else y :: insert_by_key_id x l'
  end.

Definition order_by_key_id (l : list key_row) : list key_row :=
  fold_right insert_by_key_id [] l.

Definition get_user_keys (uid : Z) (k : keys_table) : list key_row :=
  order_by_key_id
    (List.filter (fun r => (key_user_id r =? uid)%Z) (vpn_keys k)).

Definition get_key_by_id (id : Z) (k : keys_table) : option key_row :=
  find (fun r => (key_id r =? id)%Z) (vpn_keys k).

Definition get_key_by_email (email : string) (k : keys_table)
  : option key_row :=
  find (fun r => String.eqb (key_email r) email) (vpn_keys k).

Definition get_next_key_number (uid : Z) (k : keys_table) : Z :=
  (Z.of_nat (length (get_user_keys uid k)) + 1)%Z.

(** [UPDATE vpn_keys SET xui_client_uuid = ?, expiry_date = ? WHERE
    key_id = ?]. *)
Definition update_key_info (id : Z) (new_uuid : string) (new_expiry_ms : Z)
    (k : keys_table) : keys_table :=
  mk_keys
    (map (fun r =>
            if (key_id r =? id)%Z
            then mk_key (key_id r) (key_user_id r) (key_host_name r) new_uuid
                   (key_email r) (Some (datetime_of_ms new_expiry_ms))
                   (key_created_date r)
            else r) (vpn_keys k))
    (vpn_keys_seq k).

(** [UPDATE vpn_keys SET host_name = ? WHERE key_id = ?], the name
    normalised first. *)
Definition update_key_host (id : Z) (new_host_name : list Z) (k : keys_table)
  : keys_table * bool :=
  (mk_keys
     (map (fun r =>
             if (key_id r =? id)%Z
             then mk_key (key_id r) (key_user_id r)
                    (normalize_host_name (Some new_host_name))
                    (xui_client_uuid r) (key_email r) (expiry_date r)
                    (key_created_date r)
             else r) (vpn_keys k))
     (vpn_keys_seq k),
   (0 <? Z.of_nat
           (length (List.filter (fun r => (key_id r =? id)%Z) (vpn_keys k))))%Z).

Definition update_key_host_and_info
    (id : Z) (new_host_name : list Z) (new_uuid : string) (new_expiry_ms : Z)
    (k : keys_table) : keys_table :=
  mk_keys
    (map (fun r =>
            if (key_id r =? id)%Z
            then mk_key (key_id r) (key_user_id r)
                   (normalize_host_name (Some new_host_name)) new_uuid
                   (key_email r) (Some (datetime_of_ms new_expiry_ms))
                   (key_created_date r)
            else r) (vpn_keys k))
    (vpn_keys_seq k).

(** The UPDATE fails on UNIQUE when another row carries the new email;
    without a row of that id it updates nothing. *)
Definition update_key_email (id : Z) (new_email : string) (k : keys_table)
  : keys_table * bool :=
  if existsb (fun r => (key_id r =? id)%Z) (vpn_keys k) then
    if existsb (fun r => String.eqb (key_email r) new_email
                         && negb (key_id r =? id)%Z) (vpn_keys k)
    then (k, false)
    else
      (mk_keys
         (map (fun r =>
                 if (key_id r =? id)%Z
                 then mk_key (key_id r) (key_user_id r) (key_host_name r)
                        (xui_client_uuid r) new_email (expiry_date r)
                        (key_created_date r)
                 else r) (vpn_keys k))
         (vpn_keys_seq k),
       true)
  else (k, false).

(** [xui_client_data] is the client's id and expiry time in
    milliseconds, or nothing. *)
Definition update_key_status_from_server
    (email : string) (xui_client_data : option (string * Z)) (k : keys_table)
  : keys_table :=
  match xui_client_data with
  | Some (client_id, expiry_time) =>
      mk_keys
        (map (fun r =>
                if String.eqb (key_email r) email
                then mk_key (key_id r) (key_user_id r) (key_host_name r)
                       client_id (key_email r)
                       (Some (datetime_of_ms expiry_time))
                       (key_created_date r)
                else r) (vpn_keys k))
        (vpn_keys_seq k)
  | None => fst (delete_keys (fun r => String.eqb (key_email r) email) k)
  end.

(** The counters [total], [active] and [expired] of
    [get_subscription_stats]. *)
Record subscription_stats := mk_stats {
  stats_total : Z;
  stats_active : Z;
  stats_expired : Z
}.

Definition count_key (now : Z) (s : subscription_stats) (key : key_row)
  : subscription_stats :=
  match expiry_date key with
  | Some exp =>
      if (now <? exp)%Z
      then mk_stats (stats_total s) (stats_active s + 1) (stats_expired s)
      else mk_stats (stats_total s) (stats_active s) (stats_expired s + 1)
  | None => mk_stats (stats_total s) (stats_active s) (stats_expired s + 1)
  end.

Definition get_subscription_stats (now uid : Z) (k : keys_table)
  : subscription_stats :=
  let keys := get_user_keys uid k in
  fold_left (count_key now) keys (mk_stats (Z.of_nat (length keys)) 0 0).

(** What the schema of [vpn_keys] promises: [key_email] is UNIQUE,
    [key_id] is the PRIMARY KEY, and no id is above the counter. *)
Definition keys_wf (k : keys_table) : Prop :=
  NoDup (map key_email (vpn_keys k))
  /\ NoDup (map key_id (vpn_keys k))
  /\ Forall (fun r => (key_id r <= Z.of_N (vpn_keys_seq k))%Z) (vpn_keys k).

(** A table with two keys of user 1 and one of user 2. *)
Definition sample_keys : keys_table :=
  mk_keys
    [mk_key 1 1 [100; 101]%Z "u1" "a@x" (Some 5000%Z) 0;
     mk_key 2 2 [100; 101]%Z "u2" "b@x" None 0;
     mk_key 4 1 [110; 108]%Z "u3" "c@x" (Some 100%Z) 0]
    4%N.

(** One call of a function that writes [vpn_keys]; [create_gift_key]
    and [update_key_comment] are not modelled. *)
Inductive key_call :=
| KeyAddNewKey (now uid : Z) (host : list Z) (uuid email : string)
    (expiry_ms : Z)
| KeyDeleteKeyByEmail (email : string)
| KeyDeleteKeyById (id : Z)
| KeyDeleteUserKeys (uid : Z)
| KeyUpdateKeyInfo (id : Z) (new_uuid : string) (new_expiry_ms : Z)
| KeyUpdateKeyEmail (id : Z) (new_email : string)
| KeyUpdateKeyHost (id : Z) (new_host_name : list Z)
| KeyUpdateKeyHostAndInfo (id : Z) (new_host_name : list Z)
    (new_uuid : string) (new_expiry_ms : Z)
| KeyUpdateKeyStatusFromServer (email : string)
    (xui_client_data : option (string * Z)).

Definition run_key_call (c : key_call) (k : keys_table) : keys_table :=
  match c with
  | KeyAddNewKey now uid host uuid email ms =>
      fst (add_new_key now uid host uuid email ms k)
  | KeyDeleteKeyByEmail email => fst (delete_key_by_email email k)
  | KeyDeleteKeyById id => fst (delete_key_by_id id k)
  | KeyDeleteUserKeys uid => delete_user_keys uid k
  | KeyUpdateKeyInfo id uuid ms => update_key_info id uuid ms k
  | KeyUpdateKeyEmail id email => fst (update_key_email id email k)
  | KeyUpdateKeyHost id host => fst (update_key_host id host k)
  | KeyUpdateKeyHostAndInfo id host uuid ms =>
      update_key_host_and_info id host uuid ms k
  | KeyUpdateKeyStatusFromServer email data =>
      update_key_status_from_server email data k
  end.

Definition run_key_calls (cs : list key_call) (k : keys_table) : keys_table :=
  fold_left (fun k' c => run_key_call c k') cs k.

(** ** The [bot_settings] table

    [key TEXT PRIMARY KEY, value TEXT]: a map from keys to values, a
    value being a text or NULL. *)

(** [SELECT value FROM bot_settings WHERE key = ?]: [None] for a key
    without a row, and for a row whose value is NULL. *)
Definition get_setting (key : string) (s : gmap string (option string))
  : option string :=
  match s !! key with
  | Some value => value
  | None => None
  end.

(** [INSERT OR REPLACE INTO bot_settings (key, value)]. *)
Definition update_setting (key value : string)
    (s : gmap string (option string)) : gmap string (option string) :=
  <[key := Some value]> s.

(** [INSERT OR IGNORE INTO bot_settings (key, value)], the statement
    [initialize_db] runs for each default. *)
Definition insert_or_ignore_setting (key : string) (value : option string)
    (s : gmap string (option string)) : gmap string (option string) :=
  match s !! key with
  | Some _ => s
  | None => <[key := value]> s
  end.

(** The loop of [initialize_db] over [default_settings.items()]. *)
Definition insert_default_settings
    (default_settings : list (string * option string))
    (s : gmap string (option string)) : gmap string (option string) :=
  fold_left (fun s' kv => insert_or_ignore_setting (fst kv) (snd kv) s')
    default_settings s.

(** * Properties *)

(** ** Comparisons and the UPDATE statement *)




Lemma update_users_hit (uid : Z) (f : user_row -> user_row) (d : db)
    (r : user_row) :
  users d !! uid = Some r ->
  update_users uid f d = (with_users (<[uid := f r]> (users d)) d, 1%Z).
Proof. intros H. unfold update_users. now rewrite H. Qed.

Lemma update_users_miss (uid : Z) (f : user_row -> user_row) (d : db) :
  users d !! uid = None -> update_users uid f d = (d, 0%Z).
Proof. intros H. unfold update_users. now rewrite H. Qed.

(** What a SELECT sees after an UPDATE. *)
Lemma select_after_update (uid uid' : Z) (f : user_row -> user_row) (d : db) :
  select_user uid' (fst (update_users uid f d)) =
  if decide (uid = uid') then f <$> select_user uid d else select_user uid' d.
Proof.
  unfold select_user, update_users.
  destruct (users d !! uid) as [r|] eqn:E; simpl.
  - rewrite lookup_insert. destruct (decide (uid = uid')); reflexivity.
  - destruct (decide (uid = uid')) as [<-|]; [now rewrite E | reflexivity].
Qed.

(** ** Debits *)



(** C10. With an amount of zero or less both debit functions return
    [True] at once: the store is not read and not written. *)
Theorem debit_nonpositive_is_noop (uid : Z) (amount : Q) (d : db) :
  amount <= 0 ->
  deduct_from_balance uid amount d = (d, true)
  /\ deduct_from_referral_balance uid amount d = (d, true).
Proof.
  intros Hle. apply Qle_bool_iff in Hle.
  unfold deduct_from_balance, deduct_from_referral_balance.
  now rewrite Hle.
Qed.

Lemma debit_nonpositive_is_noop_witness :
  -5 <= 0
  /\ deduct_from_balance 1 (-5) (one_user_db 10 2 0 SqlNull) =
     (one_user_db 10 2 0 SqlNull, true)
  /\ deduct_from_referral_balance 1 (-5) (one_user_db 10 2 0 SqlNull) =
     (one_user_db 10 2 0 SqlNull, true).
Proof.
  assert (Hle : -5 <= 0) by (vm_compute; discriminate).
  split; [exact Hle|].
  exact (debit_nonpositive_is_noop 1 (-5) (one_user_db 10 2 0 SqlNull) Hle).
Defined.

(** ** Credits *)

(** C6, as the code has it. The credit functions make no test on the
    amount: for a user with a row, [add_to_balance] adds the amount,
    of either sign, to [balance] and returns [True], and
    [add_to_referral_balance] adds it to [referral_balance]; for a user
    without a row nothing is written and [add_to_balance] returns
    [False]. *)
Theorem credit_adds_any_amount (uid : Z) (amount : Q) (d : db) :
  (forall r, users d !! uid = Some r ->
     add_to_balance uid amount d =
       (with_users
          (<[uid := set_balance_col (balance r + amount) r]> (users d)) d,
        true)
     /\ add_to_referral_balance uid amount d =
        with_users
          (<[uid := set_referral_balance_col (referral_balance r + amount) r]>
             (users d)) d)
  /\ (users d !! uid = None ->
      add_to_balance uid amount d = (d, false)
      /\ add_to_referral_balance uid amount d = d).
Proof.
  unfold add_to_balance, add_to_referral_balance. split.
  - intros r E. now rewrite !(update_users_hit _ _ _ _ E).
  - intros E. now rewrite !(update_users_miss _ _ _ E).
Qed.

Lemma credit_adds_any_amount_witness :
  add_to_balance 1 (-5) (one_user_db 10 2 0 SqlNull) =
    (one_user_db (10 + -5) 2 0 SqlNull, true)
  /\ add_to_balance 7 (-5) (one_user_db 10 2 0 SqlNull) =
     (one_user_db 10 2 0 SqlNull, false).
Proof.
  destruct (credit_adds_any_amount 1 (-5) (one_user_db 10 2 0 SqlNull))
    as [Hhit _].
  destruct (credit_adds_any_amount 7 (-5) (one_user_db 10 2 0 SqlNull))
    as [_ Hmiss].
  split.
  - destruct (Hhit _ eq_refl) as [-> _]. reflexivity.
  - destruct (Hmiss eq_refl) as [-> _]. reflexivity.
Defined.

(** C6, as stated, fails: a credit of -5 is accepted, reports success and
    lowers the balance from 10 to 5. *)
Lemma credit_negative_is_applied :
  snd (add_to_balance 1 (-5) (one_user_db 10 10 0 SqlNull)) = true
  /\ get_balance 1 (fst (add_to_balance 1 (-5) (one_user_db 10 10 0 SqlNull)))
     = 5
  /\ get_referral_balance 1
       (add_to_referral_balance 1 (-5) (one_user_db 10 10 0 SqlNull)) = 5.
Proof. repeat split. Qed.

(** ** Sequences of credits and debits *)






(** ** Conservation *)







(** ** The transaction recorder *)

Lemma new_rowid_positive (d : db) : (1 <= new_rowid d)%Z.
Proof.
  unfold new_rowid.
  pose proof (N2Z.is_nonneg (transactions_seq d)). lia.
Qed.

Lemma payment_id_present (pid : string) (ts : list transaction_row) :
  existsb (fun t => String.eqb (payment_id t) pid) ts = true
  <-> exists t, In t ts /\ payment_id t = pid.
Proof.
  rewrite existsb_exists. split; intros (t & Hin & H); exists t;
    (split; [exact Hin|]); now apply String.eqb_eq.
Qed.

Section RecorderProperties.

Context {dict : Type}.
Variable json_dumps : dict -> string.
Variable json_loads : string -> dict.

Lemma create_pending_duplicate
    (now : Z) (pid : string) (uid : Z) (amount : Q) (meta : dict) (d : db) :
  (exists t, In t (transactions d) /\ payment_id t = pid) ->
  create_pending_transaction json_dumps now pid uid amount meta d = (d, 0%Z).
Proof.
  intros H. apply payment_id_present in H.
  unfold create_pending_transaction, insert_transaction.
  cbn [payment_id]. now rewrite H.
Qed.

Lemma create_pending_fresh
    (now : Z) (pid : string) (uid : Z) (amount : Q) (meta : dict) (d : db) :
  (forall t, In t (transactions d) -> payment_id t <> pid) ->
  create_pending_transaction json_dumps now pid uid amount meta d =
    (mk_db (users d)
       (transactions d ++
          [mk_transaction None (new_rowid d) pid uid "pending" amount
             None None None (json_dumps meta) now])
       (Z.to_N (new_rowid d)),
     new_rowid d).
Proof.
  intros H.
  assert (E : existsb (fun t => String.eqb (payment_id t) pid)
                (transactions d) = false).
  { apply not_true_is_false. intros F. apply payment_id_present in F.
    destruct F as (t & Hin & Hp). exact (H t Hin Hp). }
  unfold create_pending_transaction, insert_transaction.
  cbn [payment_id]. now rewrite E.
Qed.



End RecorderProperties.




(** ** Columns that an UPDATE leaves alone *)

Lemma select_after_update_other (uid uid' : Z) (f : user_row -> user_row)
    (d : db) :
  uid <> uid' ->
  select_user uid' (fst (update_users uid f d)) = select_user uid' d.
Proof.
  intros Hne. rewrite select_after_update.
  destruct (decide (uid = uid')); [contradiction | reflexivity].
Qed.

Lemma update_users_keeps {A : Type} (col : user_row -> A) (uid uid' : Z)
    (f : user_row -> user_row) (d : db) :
  (forall x, col (f x) = col x) ->
  col <$> select_user uid' (fst (update_users uid f d)) =
  col <$> select_user uid' d.
Proof.
  intros Hf. rewrite select_after_update.
  destruct (decide (uid = uid')) as [->|]; [|reflexivity].
  destruct (select_user uid' d); simpl; [now rewrite Hf | reflexivity].
Qed.

Lemma fst_update_rowcount {A : Type} (uid : Z) (f : user_row -> user_row)
    (d : db) (g : Z -> A) :
  fst (let '(d', rowcount) := update_users uid f d in (d', g rowcount)) =
  fst (update_users uid f d).
Proof. now destruct (update_users uid f d). Qed.

Lemma deduct_from_balance_store (uid : Z) (amount : Q) (d : db) :
  fst (deduct_from_balance uid amount d) = d
  \/ fst (deduct_from_balance uid amount d) =
     fst (update_users uid
            (fun r => set_balance_col (balance r - amount) r) d).
Proof.
  unfold deduct_from_balance.
  destruct (Qle_bool amount 0); [now left|].
  destruct (Qlt_bool _ amount); [now left | now right].
Qed.

Lemma deduct_from_referral_balance_store (uid : Z) (amount : Q) (d : db) :
  fst (deduct_from_referral_balance uid amount d) = d
  \/ fst (deduct_from_referral_balance uid amount d) =
     fst (update_users uid
            (fun r =>
               set_referral_balance_col (referral_balance r - amount) r) d).
Proof.
  unfold deduct_from_referral_balance.
  destruct (Qle_bool amount 0); [now left|].
  destruct (Qlt_bool _ amount); [now left | now right].
Qed.

(** ** The referral link *)

Lemma py_strip_nonspace (c : ascii) (s : string) :
  py_isspace c = false -> py_strip (String c s) <> EmptyString.
Proof.
  intros Hc. unfold py_strip. cbn [py_lstrip]. rewrite Hc.
  cbn [py_rstrip]. destruct (py_rstrip s); [rewrite Hc|]; discriminate.
Qed.

Lemma string_of_uint_head (u : Decimal.uint) :
  exists c s, NilZero.string_of_uint u = String c s /\ py_isspace c = false.
Proof. destruct u; cbn; eexists _, _; split; reflexivity. Qed.

(** An integer in [referred_by] never counts as empty. *)
Lemma referral_unset_int (n : Z) : referral_unset (SqlInt n) = false.
Proof.
  unfold referral_unset. cbn [is_none py_str orb].
  apply not_true_is_false. intros H. apply String.eqb_eq in H. revert H.
  unfold NilZero.string_of_int.
  destruct (Z.to_int n) as [u|u].
  - destruct (string_of_uint_head u) as (c & s & -> & Hc).
    now apply py_strip_nonspace.
  - now apply py_strip_nonspace.
Qed.





(** C7, where the code departs from it. Registering a user who has no row
    stores the [referrer_id] argument as it comes: with the user's own id
    the new row refers to itself. *)
Theorem new_user_self_referral_is_recorded
    (now tid : Z) (uname : string) (d : db) :
  select_user tid d = None ->
  referred_by <$> select_user tid
                    (register_user_if_not_exists now tid uname (Some tid) d) =
  Some (SqlInt tid).
Proof.
  intros E. unfold register_user_if_not_exists. rewrite E.
  unfold select_user. cbn [with_users users sql_of_arg].
  now rewrite lookup_insert_eq.
Qed.

Lemma new_user_self_referral_is_recorded_witness :
  referred_by <$> select_user 5
                    (register_user_if_not_exists 100 5 "bob" (Some 5%Z)
                       empty_db) =
  Some (SqlInt 5).
Proof.
  apply new_user_self_referral_is_recorded. reflexivity.
Defined.

(** The sibling branch has the guard: for a user who has a row, a
    registration naming the user as the referrer leaves [referred_by] as
    it was. *)
Lemma existing_user_self_referral_is_refused
    (now tid : Z) (uname : string) (d : db) (row : user_row) :
  select_user tid d = Some row ->
  referred_by <$> select_user tid
                    (register_user_if_not_exists now tid uname (Some tid) d) =
  Some (referred_by row).
Proof.
  intros E. unfold register_user_if_not_exists. rewrite E.
  cbn [py_int]. rewrite Z.eqb_refl. cbn [negb]. rewrite andb_false_r.
  rewrite update_users_keeps by reflexivity. now rewrite E.
Qed.

(** ** Lifetime referral earnings *)

Lemma get_referral_balance_all_select (uid : Z) (d : db) :
  get_referral_balance_all uid d =
  default 0 (referral_balance_all <$> select_user uid d).
Proof.
  unfold get_referral_balance_all. now destruct (select_user uid d).
Qed.

Lemma register_keeps_lifetime_earnings
    (now tid : Z) (uname : string) (ref : option Z) (uid : Z) (d : db) :
  get_referral_balance_all uid
    (register_user_if_not_exists now tid uname ref d) =
  get_referral_balance_all uid d.
Proof.
  rewrite !get_referral_balance_all_select.
  unfold register_user_if_not_exists.
  destruct (select_user tid d) as [row|] eqn:E.
  - destruct (_ && _ && _);
      now rewrite ?update_users_keeps by reflexivity.
  - unfold select_user in *. cbn [with_users users].
    destruct (decide (tid = uid)) as [->|Hne].
    + now rewrite lookup_insert_eq, E.
    + now rewrite lookup_insert_ne by assumption.
Qed.

(** C9, as the code has it. Every call that writes [users], other than
    [set_referral_balance_all] and [add_to_referral_balance_all] with a
    negative amount, leaves the [referral_balance_all] read for any user
    at least as large as it was. *)
Theorem lifetime_earnings_not_lowered (c : call) (uid : Z) (d : db) :
  keeps_lifetime_earnings c ->
  get_referral_balance_all uid d <= get_referral_balance_all uid (run_call c d).
Proof.
  intros Hc.
  destruct c; cbn [run_call keeps_lifetime_earnings] in *;
    try contradiction;
    try (rewrite !get_referral_balance_all_select; as_update;
         rewrite ?fst_update_rowcount;
         rewrite update_users_keeps by reflexivity; apply Qle_refl).
  - rewrite register_keeps_lifetime_earnings. apply Qle_refl.
  - unfold get_referral_balance_all, add_to_referral_balance_all.
    rewrite select_after_update.
    destruct (decide (uid0 = uid)) as [->|]; [|apply Qle_refl].
    destruct (select_user uid d); simpl; lra.
  - rewrite !get_referral_balance_all_select.
    destruct (deduct_from_balance_store uid0 amount d) as [-> | ->];
      [apply Qle_refl|].
    rewrite update_users_keeps by reflexivity. apply Qle_refl.
  - rewrite !get_referral_balance_all_select.
    destruct (deduct_from_referral_balance_store uid0 amount d) as [-> | ->];
      [apply Qle_refl|].
    rewrite update_users_keeps by reflexivity. apply Qle_refl.
Qed.

Lemma lifetime_earnings_not_lowered_witness :
  get_referral_balance_all 1 (one_user_db 0 0 10 SqlNull)
  <= get_referral_balance_all 1
       (run_call (CallAddToReferralBalanceAll 1 4)
          (one_user_db 0 0 10 SqlNull)).
Proof.
  apply (lifetime_earnings_not_lowered (CallAddToReferralBalanceAll 1 4)).
  vm_compute. discriminate.
Defined.

(** C9, as stated, fails: the setter writes any value, and the adder takes
    a negative amount; each lowers a counter of 10. *)
Lemma lifetime_earnings_can_be_lowered :
  get_referral_balance_all 1
    (set_referral_balance_all 1 3 (one_user_db 0 0 10 SqlNull))
  < get_referral_balance_all 1 (one_user_db 0 0 10 SqlNull)
  /\ get_referral_balance_all 1
       (add_to_referral_balance_all 1 (-4) (one_user_db 0 0 10 SqlNull))
     < get_referral_balance_all 1 (one_user_db 0 0 10 SqlNull).
Proof. split; reflexivity. Qed.

(** ** What a call on [users] leaves alone *)

Lemma update_users_tables (uid : Z) (f : user_row -> user_row) (d : db) :
  transactions (fst (update_users uid f d)) = transactions d
  /\ transactions_seq (fst (update_users uid f d)) = transactions_seq d.
Proof. unfold update_users. destruct (users d !! uid); split; reflexivity. Qed.

Lemma update_users_dom (uid : Z) (f : user_row -> user_row) (d : db) :
  dom (users (fst (update_users uid f d))) = dom (users d).
Proof.
  unfold update_users. destruct (users d !! uid) as [r|] eqn:E; [|reflexivity].
  cbn [fst with_users users]. apply dom_insert_lookup_L. eauto.
Qed.

(** X1. A call reads and writes the row of the user it names: every other
    row, and the whole of [transactions], is as before. *)
Theorem call_touches_one_user (c : call) (d : db) :
  (forall uid, uid <> call_target c ->
     select_user uid (run_call c d) = select_user uid d)
  /\ transactions (run_call c d) = transactions d
  /\ transactions_seq (run_call c d) = transactions_seq d.
Proof.
  split.
  - intros uid Hne.
    destruct c; cbn [run_call call_target] in *;
      try (as_update; rewrite ?fst_update_rowcount;
           now rewrite select_after_update_other by congruence).
    + unfold register_user_if_not_exists.
      destruct (select_user telegram_id d) eqn:E.
      * destruct (_ && _ && _);
          now rewrite !select_after_update_other by congruence.
      * unfold select_user. cbn [with_users users].
        now rewrite lookup_insert_ne by congruence.
    + destruct (deduct_from_balance_store uid0 amount d) as [-> | ->];
        [reflexivity|]. now rewrite select_after_update_other by congruence.
    + destruct (deduct_from_referral_balance_store uid0 amount d)
        as [-> | ->]; [reflexivity|].
      now rewrite select_after_update_other by congruence.
  - destruct c; cbn [run_call];
      try (as_update; rewrite ?fst_update_rowcount;
           apply update_users_tables).
    + unfold register_user_if_not_exists.
      destruct (select_user telegram_id d).
      * destruct (_ && _ && _).
        -- destruct (update_users_tables telegram_id
                       (set_referred_by (SqlInt (py_int referrer_id)))
                       (fst (update_users telegram_id (set_username uname) d)))
             as [-> ->].
           apply update_users_tables.
        -- apply update_users_tables.
      * split; reflexivity.
    + destruct (deduct_from_balance_store uid amount d) as [-> | ->];
        [split; reflexivity | apply update_users_tables].
    + destruct (deduct_from_referral_balance_store uid amount d)
        as [-> | ->]; [split; reflexivity | apply update_users_tables].
Qed.

Lemma call_touches_one_user_witness :
  select_user 1 (run_call (CallSetBalance 7 50) (one_user_db 10 2 0 SqlNull))
  = select_user 1 (one_user_db 10 2 0 SqlNull).
Proof.
  destruct (call_touches_one_user (CallSetBalance 7 50)
              (one_user_db 10 2 0 SqlNull)) as [H _].
  apply H. discriminate.
Defined.

(** X2. No call deletes a user, and only a registration creates one: the set
    of users after a call is the set before, with the registered user
    added. *)
Theorem users_only_grow_by_registration (c : call) (d : db) :
  dom (users (run_call c d)) =
  if is_registration c then {[call_target c]} ∪ dom (users d)
  else dom (users d).
Proof.
  destruct c; cbn [run_call is_registration call_target];
    try (as_update; rewrite ?fst_update_rowcount; apply update_users_dom).
  - unfold register_user_if_not_exists, select_user.
    destruct (users d !! telegram_id) as [row|] eqn:E.
    + assert (Hin : telegram_id ∈ dom (users d))
        by (apply elem_of_dom; eauto).
      destruct (_ && _ && _); rewrite ?update_users_dom; symmetry;
        apply subseteq_union_1_L, singleton_subseteq_l, Hin.
    + cbn [with_users users]. apply dom_insert_L.
  - destruct (deduct_from_balance_store uid amount d) as [-> | ->];
      [reflexivity | apply update_users_dom].
  - destruct (deduct_from_referral_balance_store uid amount d) as [-> | ->];
      [reflexivity | apply update_users_dom].
Qed.

(** ** Registration *)

(** The back-fill test of [register_user_if_not_exists] on a row. *)
Lemma register_existing
    (now tid : Z) (uname : string) (ref : option Z) (d : db) (r : user_row) :
  users d !! tid = Some r ->
  register_user_if_not_exists now tid uname ref d =
  with_users
    (<[tid :=
         if py_truthy ref && referral_unset (referred_by r)
            && negb (py_int ref =? tid)%Z
         then set_referred_by (SqlInt (py_int ref)) (set_username uname r)
         else set_username uname r]> (users d)) d.
Proof.
  intros E. unfold register_user_if_not_exists, select_user. rewrite E.
  rewrite (update_users_hit _ _ _ _ E). cbn [fst].
  destruct (_ && _ && _); [|reflexivity].
  unfold update_users. cbn [with_users users].
  rewrite lookup_insert_eq. cbn [fst]. unfold with_users. cbn.
  now rewrite insert_insert_eq.
Qed.

Lemma register_missing
    (now tid : Z) (uname : string) (ref : option Z) (d : db) :
  users d !! tid = None ->
  register_user_if_not_exists now tid uname ref d =
  with_users
    (<[tid := new_user_row uname now (sql_of_arg ref)]> (users d)) d.
Proof.
  intros E. unfold register_user_if_not_exists, select_user. now rewrite E.
Qed.



(** X4. Registering is idempotent: a second registration with the same
    arguments, at any time, changes nothing. *)
Theorem registration_idempotent
    (now now' tid : Z) (uname : string) (ref : option Z) (d : db) :
  register_user_if_not_exists now' tid uname ref
    (register_user_if_not_exists now tid uname ref d) =
  register_user_if_not_exists now tid uname ref d.
Proof.
  destruct (users d !! tid) as [r|] eqn:E.
  - rewrite (register_existing _ _ _ _ _ _ E).
    erewrite register_existing
      by (cbn [with_users users]; apply lookup_insert_eq).
    unfold with_users. cbn [users transactions transactions_seq].
    rewrite insert_insert_eq. do 2 f_equal.
    destruct (py_truthy ref && referral_unset (referred_by r)
              && negb (py_int ref =? tid)%Z) eqn:C.
    + cbn [referred_by set_referred_by]. rewrite referral_unset_int.
      now rewrite andb_false_r.
    + cbn [referred_by set_username]. now rewrite C.
  - rewrite (register_missing _ _ _ _ _ E).
    erewrite register_existing
      by (cbn [with_users users]; apply lookup_insert_eq).
    unfold with_users. cbn [users transactions transactions_seq].
    rewrite insert_insert_eq. do 2 f_equal.
    cbn [referred_by new_user_row].
    destruct ref as [n|]; cbn [sql_of_arg py_truthy andb];
      [rewrite referral_unset_int, andb_false_r|]; reflexivity.
Qed.

(** X5. The number of users grows by one when the registered user is new and
    stays when the user has a row. *)
Theorem registration_user_count
    (now tid : Z) (uname : string) (ref : option Z) (d : db) :
  get_user_count (register_user_if_not_exists now tid uname ref d) =
  (get_user_count d
   + match select_user tid d with Some _ => 0 | None => 1 end)%Z.
Proof.
  unfold get_user_count, select_user.
  destruct (users d !! tid) as [r|] eqn:E.
  - rewrite (register_existing _ _ _ _ _ _ E). cbn [with_users users].
    rewrite map_size_insert_Some by eauto. lia.
  - rewrite (register_missing _ _ _ _ _ E).
    cbn [with_users users]. rewrite map_size_insert_None by assumption. lia.
Qed.

(** ** Referral counts *)

Lemma referral_filter_update (uid u : Z) (f : user_row -> user_row) (d : db) :
  (forall x, referred_by (f x) = referred_by x) ->
  get_referral_count uid (fst (update_users u f d)) = get_referral_count uid d.
Proof.
  intros Hf. unfold get_referral_count, update_users.
  destruct (users d !! u) as [r|] eqn:E; [|reflexivity].
  cbn [fst with_users users]. f_equal.
  rewrite map_filter_insert. cbn [snd]. rewrite Hf.
  destruct (decide (sql_eq_int (referred_by r) uid = true)) as [Hp|Hp].
  - apply map_size_insert_Some. exists r.
    apply map_lookup_filter_Some. split; [exact E | exact Hp].
  - rewrite map_filter_delete. apply map_size_delete_None.
    apply map_lookup_filter_None. right. intros x Hx.
    rewrite E in Hx. injection Hx as <-. exact Hp.
Qed.

(** X6. The number of users a user referred is changed by registrations
    only, and the registration of a new user adds one to the count of
    the referrer it names, the new user included. *)
Theorem referral_count_follows_registration :
  (forall (c : call) (uid : Z) (d : db),
     is_registration c = false ->
     get_referral_count uid (run_call c d) = get_referral_count uid d)
  /\ (forall (now tid : Z) (uname : string) (ref : option Z) (uid : Z)
             (d : db),
        select_user tid d = None ->
        get_referral_count uid
          (register_user_if_not_exists now tid uname ref d) =
        (get_referral_count uid d
         + match ref with
           | Some n => if (n =? uid)%Z then 1 else 0
           | None => 0
           end)%Z).
Proof.
  split.
  - intros c uid d Hc.
    destruct c; try discriminate; cbn [run_call];
      try (as_update; rewrite ?fst_update_rowcount;
           now apply referral_filter_update).
    + destruct (deduct_from_balance_store uid0 amount d) as [-> | ->];
        [reflexivity | now apply referral_filter_update].
    + destruct (deduct_from_referral_balance_store uid0 amount d)
        as [-> | ->]; [reflexivity | now apply referral_filter_update].
  - intros now tid uname ref uid d E. unfold select_user in E.
    rewrite (register_missing _ _ _ _ _ E).
    unfold get_referral_count. cbn [with_users users].
    rewrite map_filter_insert. cbn [snd referred_by new_user_row].
    assert (Hnone : filter (fun kr : Z * user_row =>
                              sql_eq_int (referred_by (snd kr)) uid = true)
                      (users d) !! tid = None)
      by (apply map_lookup_filter_None; left; exact E).
    destruct ref as [n|]; cbn [sql_of_arg sql_eq_int].
    + destruct (n =? uid)%Z eqn:Hn.
      * rewrite decide_True by reflexivity.
        rewrite map_size_insert_None by exact Hnone. lia.
      * rewrite decide_False by discriminate.
        rewrite delete_id by exact E. lia.
    + rewrite decide_False by discriminate.
      rewrite delete_id by exact E. lia.
Qed.

(** ** Debits in sequence *)







Lemma referral_count_follows_registration_witness :
  get_referral_count 1
    (run_call (CallAddToBalance 1 3) (one_user_db 0 0 0 (SqlInt 1))) = 1%Z
  /\ get_referral_count 1
       (register_user_if_not_exists 5 2 "bob" (Some 1%Z)
          (one_user_db 0 0 0 SqlNull)) = 1%Z.
Proof.
  destruct referral_count_follows_registration as [Hkeep Hnew]. split.
  - rewrite Hkeep by reflexivity. reflexivity.
  - rewrite Hnew by reflexivity. reflexivity.
Defined.

(** ** Users without a row, and flags that stay *)

(** X9. Only a registration writes for a user who has no row: every other
    call then leaves the store as it was. *)
Theorem missing_user_is_not_created (c : call) (d : db) :
  is_registration c = false ->
  select_user (call_target c) d = None ->
  run_call c d = d.
Proof.
  intros Hc E. unfold select_user in E.
  destruct c; try discriminate; cbn [run_call call_target] in *;
    try (as_update; rewrite ?fst_update_rowcount;
         now rewrite (update_users_miss _ _ _ E)).
  - destruct (deduct_from_balance_store uid amount d) as [-> | ->];
      [reflexivity | now rewrite (update_users_miss _ _ _ E)].
  - destruct (deduct_from_referral_balance_store uid amount d) as [-> | ->];
      [reflexivity | now rewrite (update_users_miss _ _ _ E)].
Qed.

Lemma missing_user_is_not_created_witness :
  run_call (CallSetBalance 7 50) (one_user_db 10 2 0 SqlNull) =
  one_user_db 10 2 0 SqlNull.
Proof.
  apply missing_user_is_not_created; reflexivity.
Defined.

Lemma update_users_keeps_true (col : user_row -> bool) (uid uid' : Z)
    (f : user_row -> user_row) (d : db) :
  (forall x, col x = true -> col (f x) = true) ->
  col <$> select_user uid' d = Some true ->
  col <$> select_user uid' (fst (update_users uid f d)) = Some true.
Proof.
  intros Hf Hc. rewrite select_after_update.
  destruct (decide (uid = uid')) as [->|]; [|exact Hc].
  destruct (select_user uid' d) as [x|]; [|discriminate].
  cbn in *. injection Hc as Hc. now rewrite (Hf _ Hc).
Qed.

Lemma run_call_keeps_bonus_mark (c : call) (uid : Z) (d : db) :
  referral_start_bonus_received <$> select_user uid d = Some true ->
  referral_start_bonus_received <$> select_user uid (run_call c d) = Some true.
Proof.
  intros Hc.
  destruct c; cbn [run_call];
    try (as_update; rewrite ?fst_update_rowcount;
         apply update_users_keeps_true;
         [intros x Hx; cbn; first [exact Hx | reflexivity] | exact Hc]).
  - unfold register_user_if_not_exists.
    destruct (select_user telegram_id d) as [row|] eqn:E.
    + destruct (_ && _ && _);
        repeat (apply update_users_keeps_true; [intros x Hx; exact Hx|]);
        exact Hc.
    + unfold select_user in *. cbn [with_users users].
      destruct (decide (telegram_id = uid)) as [->|Hne].
      * rewrite E in Hc. discriminate.
      * now rewrite lookup_insert_ne by assumption.
  - destruct (deduct_from_balance_store uid0 amount d) as [-> | ->];
      [exact Hc|].
    apply update_users_keeps_true; [intros x Hx; exact Hx | exact Hc].
  - destruct (deduct_from_referral_balance_store uid0 amount d) as [-> | ->];
      [exact Hc|].
    apply update_users_keeps_true; [intros x Hx; exact Hx | exact Hc].
Qed.

Lemma run_call_keeps_terms_mark (c : call) (uid : Z) (d : db) :
  agreed_to_terms <$> select_user uid d = Some true ->
  agreed_to_terms <$> select_user uid (run_call c d) = Some true.
Proof.
  intros Hc.
  destruct c; cbn [run_call];
    try (as_update; rewrite ?fst_update_rowcount;
         apply update_users_keeps_true;
         [intros x Hx; cbn; first [exact Hx | reflexivity] | exact Hc]).
  - unfold register_user_if_not_exists.
    destruct (select_user telegram_id d) as [row|] eqn:E.
    + destruct (_ && _ && _);
        repeat (apply update_users_keeps_true; [intros x Hx; exact Hx|]);
        exact Hc.
    + unfold select_user in *. cbn [with_users users].
      destruct (decide (telegram_id = uid)) as [->|Hne].
      * rewrite E in Hc. discriminate.
      * now rewrite lookup_insert_ne by assumption.
  - destruct (deduct_from_balance_store uid0 amount d) as [-> | ->];
      [exact Hc|].
    apply update_users_keeps_true; [intros x Hx; exact Hx | exact Hc].
  - destruct (deduct_from_referral_balance_store uid0 amount d) as [-> | ->];
      [exact Hc|].
    apply update_users_keeps_true; [intros x Hx; exact Hx | exact Hc].
Qed.

(** X10. No call clears the start-bonus mark or the agreement to the terms:
    once a user has either, the user has it after any sequence of
    calls. *)
Theorem bonus_and_terms_marks_stay (cs : list call) (uid : Z) (d : db) :
  (referral_start_bonus_received <$> select_user uid d = Some true ->
   referral_start_bonus_received <$> select_user uid (run_calls cs d)
   = Some true)
  /\ (agreed_to_terms <$> select_user uid d = Some true ->
      agreed_to_terms <$> select_user uid (run_calls cs d) = Some true).
Proof.
  revert d. induction cs as [|c cs IH]; intros d; [split; auto|].
  unfold run_calls. cbn [fold_left].
  destruct (IH (run_call c d)) as [IHb IHt]. split; intros H.
  - apply IHb. now apply run_call_keeps_bonus_mark.
  - apply IHt. now apply run_call_keeps_terms_mark.
Qed.

Lemma bonus_and_terms_marks_stay_witness :
  agreed_to_terms <$> select_user 1
    (run_calls [CallBanUser 1; CallSetTrialStatus 1 false;
                CallRegisterUserIfNotExists 3 1 "al" None]
       (set_terms_agreed 1 (one_user_db 0 0 0 SqlNull))) = Some true.
Proof.
  apply bonus_and_terms_marks_stay. reflexivity.
Defined.

(** ** The sum of what users spent *)





(** ** The transaction recorder, continued *)

Lemma largest_rowid_bound (t : transaction_row) (ts : list transaction_row) :
  forall x, In x (t :: ts) -> (transaction_id x <= largest_rowid t ts)%Z.
Proof.
  unfold largest_rowid.
  assert (G : forall (l : list Z) (a : Z),
             (a <= fold_left Z.max l a)%Z
             /\ forall y, In y l -> (y <= fold_left Z.max l a)%Z).
  { induction l as [|z l IH]; intros a; cbn [fold_left].
    - split; [lia | intros y []].
    - destruct (IH (Z.max a z)) as [H1 H2]. split; [lia|].
      intros y [<-|Hy]; [lia | now apply H2]. }
  intros x [<-|Hx].
  - apply (proj1 (G _ _)).
  - apply (proj2 (G _ _)). now apply in_map.
Qed.

Lemma new_rowid_fresh (d : db) :
  forall x, In x (transactions d) -> (transaction_id x < new_rowid d)%Z.
Proof.
  unfold new_rowid. intros x Hx.
  destruct (transactions d) as [|t ts]; [destruct Hx|].
  pose proof (largest_rowid_bound t ts x Hx). lia.
Qed.

Lemma new_rowid_above_seq (d : db) :
  (Z.of_N (transactions_seq d) < new_rowid d)%Z.
Proof. unfold new_rowid. lia. Qed.

Lemma create_pending_wf {dict : Type} (json_dumps : dict -> string)
    (now : Z) (pid : string) (uid : Z) (amount : Q) (meta : dict) (d : db) :
  transactions_wf d ->
  transactions_wf
    (fst (create_pending_transaction json_dumps now pid uid amount meta d)).
Proof.
  intros (Hp & Hi & Hs).
  destruct (existsb (fun t => String.eqb (payment_id t) pid)
              (transactions d)) eqn:E.
  - apply payment_id_present in E.
    rewrite (create_pending_duplicate _ _ _ _ _ _ _ E).
    now repeat split.
  - assert (H : forall t, In t (transactions d) -> payment_id t <> pid).
    { intros t Hin Hpid.
      assert (F : existsb (fun t => String.eqb (payment_id t) pid)
                    (transactions d) = true)
        by (apply payment_id_present; eauto).
      congruence. }
    rewrite (create_pending_fresh _ _ _ _ _ _ _ H).
    unfold transactions_wf. cbn [fst transactions transactions_seq].
    pose proof (new_rowid_positive d) as Hpos.
    pose proof (new_rowid_fresh d) as Hfresh.
    pose proof (new_rowid_above_seq d) as Hseq.
    rewrite !map_app. cbn [map payment_id transaction_id].
    split; [|split].
    + apply NoDup_app. split; [exact Hp|]. split; [|apply NoDup_singleton].
      intros x Hx Hx'. apply list_elem_of_In in Hx.
      apply list_elem_of_singleton in Hx'. subst x.
      apply in_map_iff in Hx as (t & Ht & Hin). exact (H t Hin Ht).
    + apply NoDup_app. split; [exact Hi|]. split; [|apply NoDup_singleton].
      intros x Hx Hx'. apply list_elem_of_In in Hx.
      apply list_elem_of_singleton in Hx'. subst x.
      apply in_map_iff in Hx as (t & Ht & Hin).
      pose proof (Hfresh t Hin). lia.
    + rewrite Z2N.id by lia. apply Forall_app. split.
      * rewrite Forall_forall. intros t Hin. apply list_elem_of_In in Hin.
        pose proof (Hfresh t Hin). lia.
      * repeat constructor. cbn. lia.
Qed.

Lemma mark_paid_keeps_ids (pid : string) (amount_ton : Q)
    (ts : list transaction_row) :
  map payment_id
    (map (fun t => if String.eqb (payment_id t) pid
                   then mark_paid_ton amount_ton t else t) ts)
  = map payment_id ts
  /\ map transaction_id
       (map (fun t => if String.eqb (payment_id t) pid
                      then mark_paid_ton amount_ton t else t) ts)
     = map transaction_id ts.
Proof.
  rewrite !map_map. split; apply map_ext; intros t;
    now destruct (String.eqb (payment_id t) pid).
Qed.

Lemma find_and_complete_store {dict : Type} (json_loads : string -> dict)
    (pid : string) (amount_ton : Q) (d : db) :
  fst (find_and_complete_ton_transaction json_loads pid amount_ton d) = d
  \/ fst (find_and_complete_ton_transaction json_loads pid amount_ton d) =
     with_transactions
       (map (fun t => if String.eqb (payment_id t) pid
                      then mark_paid_ton amount_ton t else t)
          (transactions d)) d.
Proof.
  unfold find_and_complete_ton_transaction.
  destruct (find _ (transactions d)); [now right | now left].
Qed.

(** X12. The schema constraints hold along every run of the recorder: if
    payment ids and transaction ids are unique and below the
    AUTOINCREMENT counter, they are so after a creation, a resolution
    and a logged transaction. *)
Theorem recorder_keeps_transactions_wf {dict : Type}
    (json_dumps : dict -> string) (json_loads : string -> dict) (d : db) :
  transactions_wf d ->
  (forall now pid uid amount meta,
     transactions_wf
       (fst (create_pending_transaction json_dumps now pid uid amount meta
               d)))
  /\ (forall pid amount_ton,
        transactions_wf
          (fst (find_and_complete_ton_transaction json_loads pid amount_ton
                  d)))
  /\ (forall now uname tid pid uid st amount amount_cur cur_name method meta,
        transactions_wf
          (log_transaction now uname tid pid uid st amount amount_cur
             cur_name method meta d)).
Proof.
  intros Hwf. split; [|split].
  - intros. now apply create_pending_wf.
  - intros pid amount_ton.
    destruct (find_and_complete_store json_loads pid amount_ton d)
      as [-> | ->]; [exact Hwf|].
    destruct Hwf as (Hp & Hi & Hs). unfold transactions_wf.
    cbn [with_transactions transactions transactions_seq].
    destruct (mark_paid_keeps_ids pid amount_ton (transactions d))
      as [-> ->].
    split; [exact Hp|]. split; [exact Hi|].
    rewrite Forall_forall in *. intros t Ht.
    apply list_elem_of_In, in_map_iff in Ht as (t0 & <- & Hin).
    apply list_elem_of_In in Hin. specialize (Hs t0 Hin).
    now destruct (String.eqb (payment_id t0) pid).
  - intros now uname tid pid uid st amount amount_cur cur_name method meta.
    unfold log_transaction. destruct pid as [p|]; [|exact Hwf].
    set (rowid := match tid with Some n => n | None => new_rowid d end).
    assert (Hrow : (rowid <= Z.of_N (N.max (transactions_seq d)
                                       (Z.to_N rowid)))%Z) by lia.
    clearbody rowid.
    destruct (existsb (fun t => String.eqb (payment_id t) p)
                (transactions d)) eqn:Ep; [exact Hwf|].
    destruct (existsb (fun t => (transaction_id t =? rowid)%Z)
                (transactions d)) eqn:Ei; [exact Hwf|].
    cbn [orb]. destruct Hwf as (Hp & Hi & Hs). unfold transactions_wf.
    cbn [transactions transactions_seq].
    rewrite !map_app. cbn [map payment_id transaction_id].
    split; [|split].
    + apply NoDup_app. split; [exact Hp|]. split; [|apply NoDup_singleton].
      intros x Hx Hx'. apply list_elem_of_In in Hx.
      apply list_elem_of_singleton in Hx'. subst x.
      apply in_map_iff in Hx as (t & Ht & Hin).
      assert (F : existsb (fun t => String.eqb (payment_id t) p)
                    (transactions d) = true)
        by (apply payment_id_present; eauto).
      congruence.
    + apply NoDup_app. split; [exact Hi|]. split; [|apply NoDup_singleton].
      intros x Hx Hx'. apply list_elem_of_In in Hx.
      apply list_elem_of_singleton in Hx'. subst x.
      apply in_map_iff in Hx as (t & Ht & Hin).
      assert (F : existsb (fun t0 => (transaction_id t0 =? rowid)%Z)
                    (transactions d) = true).
      { apply existsb_exists. exists t. split; [exact Hin|].
        now apply Z.eqb_eq. }
      congruence.
    + apply Forall_app. split.
      * rewrite Forall_forall in *. intros t Hin. specialize (Hs t Hin).
        cbn beta in *. lia.
      * repeat constructor. exact Hrow.
Qed.

Lemma recorder_keeps_transactions_wf_witness :
  transactions_wf
    (fst (create_pending_transaction (fun s : string => s) 9 "P2" 2 300 "{}"
            pending_db)).
Proof.
  apply (recorder_keeps_transactions_wf (fun s : string => s)
           (fun s : string => s) pending_db).
  repeat split; repeat constructor; cbn; try lia.
  - intros H. apply list_elem_of_In in H. destruct H.
  - intros H. apply list_elem_of_In in H. destruct H.
Defined.

Lemma no_pending_after_marking (pid : string) (amount_ton : Q)
    (ts : list transaction_row) :
  find (fun t => String.eqb (payment_id t) pid
                 && String.eqb (status t) "pending")
    (map (fun t => if String.eqb (payment_id t) pid
                   then mark_paid_ton amount_ton t else t) ts) = None.
Proof.
  induction ts as [|t ts IH]; [reflexivity|]. cbn [map find].
  destruct (String.eqb (payment_id t) pid) eqn:E.
  - cbn [payment_id status mark_paid_ton]. rewrite E. cbn. exact IH.
  - rewrite E. cbn. exact IH.
Qed.

(** X13. A payment is resolved at most once: after any call for a
    [payment_id], a further call for it returns [None] and changes
    nothing. *)
Theorem resolution_happens_once {dict : Type} (json_loads : string -> dict)
    (pid : string) (a1 a2 : Q) (d : db) :
  find_and_complete_ton_transaction json_loads pid a2
    (fst (find_and_complete_ton_transaction json_loads pid a1 d)) =
  (fst (find_and_complete_ton_transaction json_loads pid a1 d), None).
Proof.
  unfold find_and_complete_ton_transaction at 2 3.
  destruct (find _ (transactions d)) as [t|] eqn:F; cbn [fst].
  - unfold find_and_complete_ton_transaction.
    cbn [with_transactions transactions].
    now rewrite no_pending_after_marking.
  - unfold find_and_complete_ton_transaction. now rewrite F.
Qed.




(** X15. A resolution rewrites status and the three TON columns of the rows of
    its [payment_id] and nothing else: every row keeps its id, payment
    id, user, rouble amount, metadata and date, rows of other payments
    are untouched, and so are [users] and the id counter. *)
Theorem resolution_touches_one_payment {dict : Type}
    (json_loads : string -> dict) (pid : string) (amount_ton : Q) (d : db) :
  users (fst (find_and_complete_ton_transaction json_loads pid amount_ton d))
  = users d
  /\ transactions_seq
       (fst (find_and_complete_ton_transaction json_loads pid amount_ton d))
     = transactions_seq d
  /\ Forall2
       (fun t t' =>
          transaction_id t' = transaction_id t
          /\ payment_id t' = payment_id t
          /\ user_id t' = user_id t
          /\ amount_rub t' = amount_rub t
          /\ metadata t' = metadata t
          /\ created_date t' = created_date t
          /\ tx_username t' = tx_username t
          /\ (payment_id t <> pid -> t' = t))
       (transactions d)
       (transactions
          (fst (find_and_complete_ton_transaction json_loads pid amount_ton
                  d))).
Proof.
  destruct (find_and_complete_store json_loads pid amount_ton d)
    as [-> | ->].
  - split; [reflexivity|]. split; [reflexivity|].
    induction (transactions d); constructor; [now repeat split | assumption].
  - split; [reflexivity|]. split; [reflexivity|].
    cbn [with_transactions transactions].
    induction (transactions d) as [|t ts IH]; cbn [map]; constructor;
      [|exact IH].
    destruct (String.eqb (payment_id t) pid) eqn:E.
    + apply String.eqb_eq in E. repeat split. intros Hne. contradiction.
    + now repeat split.
Qed.

(** ** Income *)






(** ** Logged transactions *)



(** ** The keys of a user *)

Lemma insert_by_key_id_perm (x : key_row) (l : list key_row) :
  Permutation (insert_by_key_id x l) (x :: l).
Proof.
  induction l as [|y l IH]; cbn [insert_by_key_id]; [reflexivity|].
  destruct (key_id x <=? key_id y)%Z; [reflexivity|].
  rewrite IH. apply perm_swap.
Qed.

Lemma order_by_key_id_perm (l : list key_row) :
  Permutation (order_by_key_id l) l.
Proof.
  induction l as [|x l IH]; [reflexivity|].
  unfold order_by_key_id. cbn [fold_right].
  rewrite insert_by_key_id_perm. now constructor.
Qed.

Lemma insert_by_key_id_sorted (x : key_row) (l : list key_row) :
  StronglySorted (fun a b => (key_id a <= key_id b)%Z) l ->
  StronglySorted (fun a b => (key_id a <= key_id b)%Z) (insert_by_key_id x l).
Proof.
  induction 1 as [|y l Hs IH Hy]; cbn [insert_by_key_id].
  - repeat constructor.
  - destruct (key_id x <=? key_id y)%Z eqn:E.
    + apply Z.leb_le in E. constructor; [now constructor|].
      constructor; [exact E|].
      rewrite Forall_forall in *. intros z Hz. specialize (Hy z Hz). lia.
    + apply Z.leb_gt in E. constructor; [exact IH|].
      rewrite Forall_forall in *. intros z Hz.
      rewrite (insert_by_key_id_perm x l) in Hz.
      apply elem_of_cons in Hz as [->|Hz]; [lia | now apply Hy].
Qed.

(** X18. [get_user_keys] returns the keys of the user and no others, each as
    often as the table holds it, by increasing [key_id]. *)
Theorem get_user_keys_sorted_selection (uid : Z) (k : keys_table) :
  Permutation (get_user_keys uid k)
    (List.filter (fun r => (key_user_id r =? uid)%Z) (vpn_keys k))
  /\ StronglySorted (fun a b => (key_id a <= key_id b)%Z)
       (get_user_keys uid k).
Proof.
  split; [apply order_by_key_id_perm|].
  unfold get_user_keys, order_by_key_id.
  induction (List.filter _ (vpn_keys k)) as [|x l IH]; cbn [fold_right].
  - constructor.
  - now apply insert_by_key_id_sorted.
Qed.

Lemma get_user_keys_length (uid : Z) (k : keys_table) :
  length (get_user_keys uid k) =
  length (List.filter (fun r => (key_user_id r =? uid)%Z) (vpn_keys k)).
Proof. apply Permutation_length, order_by_key_id_perm. Qed.

(** ** Subscription counters *)

Lemma count_keys_totals (now : Z) (keys : list key_row) :
  forall s,
    stats_total (fold_left (count_key now) keys s) = stats_total s
    /\ (stats_active (fold_left (count_key now) keys s)
        + stats_expired (fold_left (count_key now) keys s)
        = stats_active s + stats_expired s + Z.of_nat (length keys))%Z
    /\ (stats_active s <= stats_active (fold_left (count_key now) keys s))%Z
    /\ (stats_expired s <= stats_expired (fold_left (count_key now) keys s))%Z.
Proof.
  induction keys as [|x keys IH]; intros s; cbn [fold_left length].
  - repeat split; lia.
  - destruct (IH (count_key now s x)) as (H1 & H2 & H3 & H4).
    rewrite H1, H2. unfold count_key in *.
    destruct (expiry_date x) as [e|]; [destruct (now <? e)%Z|];
      cbn [stats_total stats_active stats_expired] in *;
      repeat split; lia.
Qed.

(** X19. Every key of the user is counted once, as active or as expired: the
    total is their sum, it is the number of keys [get_user_keys] returns,
    and one less than [get_next_key_number]. *)
Theorem subscription_stats_add_up (now uid : Z) (k : keys_table) :
  let s := get_subscription_stats now uid k in
  (stats_total s = stats_active s + stats_expired s)%Z
  /\ stats_total s = Z.of_nat (length (get_user_keys uid k))
  /\ (stats_total s = get_next_key_number uid k - 1)%Z
  /\ (0 <= stats_active s)%Z /\ (0 <= stats_expired s)%Z.
Proof.
  unfold get_subscription_stats, get_next_key_number.
  destruct (count_keys_totals now (get_user_keys uid k)
              (mk_stats (Z.of_nat (length (get_user_keys uid k))) 0 0))
    as (H1 & H2 & H3 & H4).
  cbn [stats_total stats_active stats_expired] in *.
  repeat split; lia.
Qed.

(** ** Adding and deleting keys *)

Lemma key_email_present (email : string) (rs : list key_row) :
  existsb (fun r => String.eqb (key_email r) email) rs = true
  <-> exists r, In r rs /\ key_email r = email.
Proof.
  rewrite existsb_exists. split; intros (r & Hin & H); exists r;
    (split; [exact Hin|]); now apply String.eqb_eq.
Qed.

Lemma key_email_absent (email : string) (rs : list key_row) :
  (forall r, In r rs -> key_email r <> email) ->
  existsb (fun r => String.eqb (key_email r) email) rs = false.
Proof.
  intros H. apply not_true_is_false. intros F.
  apply key_email_present in F as (r & Hin & Hr). exact (H r Hin Hr).
Qed.

Lemma new_key_id_fresh (k : keys_table) :
  (Z.of_N (vpn_keys_seq k) < new_key_id k)%Z
  /\ forall r, In r (vpn_keys k) -> (key_id r < new_key_id k)%Z.
Proof.
  unfold new_key_id. split; [lia|]. intros r Hr.
  destruct (vpn_keys k) as [|r0 rs]; [destruct Hr|].
  assert (G : forall (l : list Z) (a : Z),
             (a <= fold_left Z.max l a)%Z
             /\ forall y, In y l -> (y <= fold_left Z.max l a)%Z).
  { induction l as [|z l IH]; intros a; cbn [fold_left].
    - split; [lia | intros y []].
    - destruct (IH (Z.max a z)) as [H1 H2]. split; [lia|].
      intros y [<-|Hy]; [lia | now apply H2]. }
  destruct Hr as [<-|Hr].
  - pose proof (proj1 (G (map key_id rs) (key_id r0))). lia.
  - pose proof (proj2 (G (map key_id rs) (key_id r0)) (key_id r)
                  (in_map key_id _ _ Hr)). lia.
Qed.

Lemma find_app_fresh {A : Type} (p : A -> bool) (l : list A) (x : A) :
  (forall y, In y l -> p y = false) ->
  p x = true ->
  find p (l ++ [x]) = Some x.
Proof.
  intros Hl Hx. induction l as [|y l IH]; cbn [app find].
  - now rewrite Hx.
  - rewrite (Hl y (or_introl eq_refl)). apply IH.
    intros z Hz. apply Hl. now right.
Qed.

(** X20. [add_new_key] under an email that a key already carries returns
    [None] and writes nothing.  Under a fresh email it returns an id
    above every id in the table and above the counter, and the key, with
    the fields given, is then the one both lookups return. *)
Theorem add_new_key_outcomes
    (now uid : Z) (host : list Z) (uuid email : string) (ms : Z)
    (k : keys_table) :
  ((exists r, In r (vpn_keys k) /\ key_email r = email) ->
   add_new_key now uid host uuid email ms k = (k, None))
  /\ ((forall r, In r (vpn_keys k) -> key_email r <> email) ->
      exists id,
        snd (add_new_key now uid host uuid email ms k) = Some id
        /\ (Z.of_N (vpn_keys_seq k) < id)%Z
        /\ (forall r, In r (vpn_keys k) -> (key_id r < id)%Z)
        /\ get_key_by_email email
             (fst (add_new_key now uid host uuid email ms k)) =
           Some (mk_key id uid host uuid email (Some (datetime_of_ms ms)) now)
        /\ get_key_by_id id
             (fst (add_new_key now uid host uuid email ms k)) =
           Some (mk_key id uid host uuid email (Some (datetime_of_ms ms))
                   now)).
Proof.
  unfold add_new_key. split.
  - intros H. apply key_email_present in H. now rewrite H.
  - intros H. rewrite (key_email_absent _ _ H).
    destruct (new_key_id_fresh k) as [Hseq Hids].
    exists (new_key_id k). cbn [fst snd].
    split; [reflexivity|]. split; [exact Hseq|]. split; [exact Hids|].
    unfold get_key_by_email, get_key_by_id. cbn [vpn_keys]. split.
    + apply find_app_fresh.
      * intros y Hy. apply String.eqb_neq. now apply H.
      * cbn [key_email]. apply String.eqb_refl.
    + apply find_app_fresh.
      * intros y Hy. apply Z.eqb_neq. pose proof (Hids y Hy). lia.
      * cbn [key_id]. apply Z.eqb_refl.
Qed.

Lemma add_new_key_outcomes_witness :
  add_new_key 7 1 [100; 101]%Z "u9" "a@x" 9000 sample_keys = (sample_keys, None)
  /\ snd (add_new_key 7 1 [100; 101]%Z "u9" "z@x" 9000 sample_keys) = Some 5%Z.
Proof.
  destruct (add_new_key_outcomes 7 1 [100; 101]%Z "u9" "a@x" 9000 sample_keys)
    as [Hdup _].
  destruct (add_new_key_outcomes 7 1 [100; 101]%Z "u9" "z@x" 9000 sample_keys)
    as [_ Hnew].
  split.
  - apply Hdup. eexists. split; [left; reflexivity | reflexivity].
  - destruct Hnew as (id & _ & _ & _ & _ & _).
    + intros r [<-|[<-|[<-|[]]]]; discriminate.
    + reflexivity.
Defined.

(** X21. The next key number of a user is one more after a key is added for
    the user, and the same for every other user. *)
Theorem next_key_number_after_add
    (now uid : Z) (host : list Z) (uuid email : string) (ms : Z)
    (k : keys_table)
    (u : Z) :
  (forall r, In r (vpn_keys k) -> key_email r <> email) ->
  get_next_key_number u (fst (add_new_key now uid host uuid email ms k)) =
  (get_next_key_number u k + if (uid =? u)%Z then 1 else 0)%Z.
Proof.
  intros H. unfold get_next_key_number, add_new_key.
  rewrite (key_email_absent _ _ H). cbn [fst].
  rewrite !get_user_keys_length. cbn [vpn_keys].
  rewrite List.filter_app, length_app. cbn [List.filter key_user_id].
  destruct (uid =? u)%Z; cbn [length]; lia.
Qed.

Lemma next_key_number_after_add_witness :
  get_next_key_number 1
    (fst (add_new_key 7 1 [100; 101]%Z "u9" "z@x" 9000 sample_keys)) = 4%Z.
Proof.
  rewrite next_key_number_after_add; [reflexivity|].
  intros r [<-|[<-|[<-|[]]]]; discriminate.
Defined.

Lemma find_filter_keep {A : Type} (p q : A -> bool) (l : list A) :
  (forall x, p x = true -> q x = true) ->
  find p (List.filter q l) = find p l.
Proof.
  intros H. induction l as [|x l IH]; [reflexivity|]. cbn [List.filter find].
  destruct (p x) eqn:Hp.
  - rewrite (H x Hp). cbn [find]. now rewrite Hp.
  - destruct (q x); cbn [find]; rewrite ?Hp; exact IH.
Qed.

Lemma find_filter_drop {A : Type} (p : A -> bool) (l : list A) :
  find p (List.filter (fun x => negb (p x)) l) = None.
Proof.
  induction l as [|x l IH]; [reflexivity|]. cbn [List.filter].
  destruct (p x) eqn:Hp; cbn [negb find]; [exact IH|]. now rewrite Hp.
Qed.

Lemma filter_nonempty {A : Type} (p : A -> bool) (l : list A) :
  (0 <? Z.of_nat (length (List.filter p l)))%Z = true
  <-> exists x, In x l /\ p x = true.
Proof.
  rewrite Z.ltb_lt. split.
  - intros H. destruct (List.filter p l) as [|x l'] eqn:E; [cbn in H; lia|].
    exists x. apply filter_In. rewrite E. now left.
  - intros (x & Hx). apply filter_In in Hx.
    destruct (List.filter p l); [destruct Hx | cbn; lia].
Qed.

Lemma one_key_less (e : string) (l : list key_row) (r : key_row) :
  NoDup (map key_email l) ->
  In r l ->
  key_email r = e ->
  length (List.filter (fun x => (key_user_id x =? key_user_id r)%Z) l) =
  S (length
       (List.filter (fun x => (key_user_id x =? key_user_id r)%Z)
          (List.filter (fun x => negb (String.eqb (key_email x) e)) l))).
Proof.
  intros Hnd Hin He. induction l as [|x l IH]; [destruct Hin|].
  cbn [map] in Hnd. apply NoDup_cons in Hnd as [Hx Hnd].
  cbn [List.filter]. destruct Hin as [->|Hin].
  - rewrite He, String.eqb_refl, Z.eqb_refl. cbn [negb length].
    assert (E : List.filter (fun x => negb (String.eqb (key_email x) e)) l
                = l).
    { apply forallb_filter_id.
      apply forallb_forall. intros y Hy. apply negb_true_iff, String.eqb_neq.
      intros Hy'. apply Hx. apply list_elem_of_In.
      rewrite He, <- Hy'. now apply in_map. }
    now rewrite E.
  - assert (Hne : String.eqb (key_email x) e = false).
    { apply String.eqb_neq. intros Hx'. apply Hx. apply list_elem_of_In.
      rewrite Hx', <- He. now apply in_map. }
    rewrite Hne. cbn [negb List.filter].
    destruct (key_user_id x =? key_user_id r)%Z; cbn [length];
      now rewrite (IH Hnd Hin).
Qed.

(** X22. [delete_key_by_email] returns [True] exactly when a key carried the
    email; afterwards no key carries it, the lookup of every other email
    answers as before, and, emails being unique, the owner's next key
    number is one less: the number of the next key repeats one already
    given. *)
Theorem delete_key_by_email_outcomes (email : string) (k : keys_table) :
  (snd (delete_key_by_email email k) = true
   <-> exists r, In r (vpn_keys k) /\ key_email r = email)
  /\ get_key_by_email email (fst (delete_key_by_email email k)) = None
  /\ (forall e, e <> email ->
        get_key_by_email e (fst (delete_key_by_email email k)) =
        get_key_by_email e k)
  /\ (forall r,
        NoDup (map key_email (vpn_keys k)) ->
        In r (vpn_keys k) ->
        key_email r = email ->
        get_next_key_number (key_user_id r)
          (fst (delete_key_by_email email k)) =
        (get_next_key_number (key_user_id r) k - 1)%Z).
Proof.
  unfold delete_key_by_email, delete_keys. cbn [fst snd].
  split; [|split; [|split]].
  - rewrite filter_nonempty. split; intros (r & Hin & H); exists r;
      (split; [exact Hin|]); now apply String.eqb_eq.
  - unfold get_key_by_email. cbn [vpn_keys].
    apply (find_filter_drop (fun r => String.eqb (key_email r) email)).
  - intros e Hne. unfold get_key_by_email. cbn [vpn_keys].
    apply find_filter_keep. intros x Hx. apply String.eqb_eq in Hx.
    apply negb_true_iff, String.eqb_neq. congruence.
  - intros r Hnd Hin He. unfold get_next_key_number.
    rewrite !get_user_keys_length. cbn [vpn_keys].
    rewrite (one_key_less email _ r Hnd Hin He). lia.
Qed.

Lemma delete_key_by_email_outcomes_witness :
  snd (delete_key_by_email "c@x" sample_keys) = true
  /\ get_next_key_number 1 (fst (delete_key_by_email "c@x" sample_keys))
     = 2%Z.
Proof.
  destruct (delete_key_by_email_outcomes "c@x" sample_keys)
    as (Hflag & _ & _ & Hnum).
  split.
  - apply Hflag. eexists. split; [right; right; left; reflexivity|].
    reflexivity.
  - change 1%Z with (key_user_id (mk_key 4 1 [110; 108]%Z "u3" "c@x" (Some 100%Z) 0))
      at 1.
    rewrite Hnum.
    + reflexivity.
    + repeat constructor; intros F; apply list_elem_of_In in F;
        repeat (destruct F as [F|F]; [discriminate|]); destruct F.
    + right; right; left; reflexivity.
    + reflexivity.
Defined.

(** ** The constraints of [vpn_keys] *)

Lemma NoDup_map_filter {A B : Type} (f : A -> B) (p : A -> bool)
    (l : list A) :
  NoDup (map f l) -> NoDup (map f (List.filter p l)).
Proof.
  induction l as [|x l IH]; cbn [map List.filter]; [auto|].
  intros H. apply NoDup_cons in H as [Hx Hnd].
  destruct (p x); [|now apply IH]. cbn [map]. apply NoDup_cons.
  split; [|now apply IH]. intros F. apply Hx.
  apply list_elem_of_In in F. apply list_elem_of_In.
  apply in_map_iff in F as (y & Hy & Hin). apply filter_In in Hin as [Hin _].
  rewrite <- Hy. now apply in_map.
Qed.

Lemma delete_keys_wf (p : key_row -> bool) (k : keys_table) :
  keys_wf k -> keys_wf (fst (delete_keys p k)).
Proof.
  intros (He & Hi & Hs). unfold keys_wf, delete_keys.
  cbn [fst vpn_keys vpn_keys_seq].
  split; [now apply NoDup_map_filter|]. split; [now apply NoDup_map_filter|].
  rewrite Forall_forall in *. intros r Hr.
  apply list_elem_of_In, filter_In in Hr as [Hr _].
  apply Hs. now apply list_elem_of_In.
Qed.

Lemma update_rows_wf (g : key_row -> key_row) (k : keys_table) :
  (forall r, key_id (g r) = key_id r) ->
  (forall r, key_email (g r) = key_email r) ->
  keys_wf k -> keys_wf (mk_keys (map g (vpn_keys k)) (vpn_keys_seq k)).
Proof.
  intros Hid Hem (He & Hi & Hs). unfold keys_wf. cbn [vpn_keys vpn_keys_seq].
  rewrite !map_map.
  rewrite (map_ext _ key_email Hem), (map_ext _ key_id Hid).
  split; [exact He|]. split; [exact Hi|].
  rewrite Forall_forall in *. intros r Hr.
  apply list_elem_of_In, in_map_iff in Hr as (r0 & <- & Hin).
  rewrite Hid. apply Hs. now apply list_elem_of_In.
Qed.

Lemma rename_email_nodup (id : Z) (e : string) (l : list key_row) :
  NoDup (map key_id l) ->
  NoDup (map key_email l) ->
  (forall r, In r l -> key_email r = e -> key_id r = id) ->
  NoDup
    (map key_email
       (map (fun r =>
               if (key_id r =? id)%Z
               then mk_key (key_id r) (key_user_id r) (key_host_name r)
                      (xui_client_uuid r) e (expiry_date r)
                      (key_created_date r)
               else r) l)).
Proof.
  induction l as [|x l IH]; cbn [map]; [constructor|].
  intros Hi He H.
  apply NoDup_cons in Hi as [Hxi Hi]. apply NoDup_cons in He as [Hxe He].
  assert (Hl : forall r, In r l -> key_email r = e -> key_id r = id)
    by (intros r Hr; apply H; now right).
  apply NoDup_cons. split; [|now apply IH].
  intros F. apply list_elem_of_In, in_map_iff in F as (y & Hy & Hin).
  apply in_map_iff in Hin as (z & <- & Hz).
  destruct (key_id x =? id)%Z eqn:Ex, (key_id z =? id)%Z eqn:Ez;
    cbn [key_email] in Hy.
  - apply Z.eqb_eq in Ex, Ez. apply Hxi. apply list_elem_of_In.
    rewrite Ex, <- Ez. now apply in_map.
  - apply Z.eqb_eq in Ex. apply Z.eqb_neq in Ez. apply Ez. now apply Hl.
  - apply Z.eqb_neq in Ex. apply Ex. apply H; [now left | now symmetry].
  - apply Hxe. apply list_elem_of_In. rewrite <- Hy. now apply in_map.
Qed.

Lemma run_key_call_wf (c : key_call) (k : keys_table) :
  keys_wf k ->
  keys_wf (run_key_call c k)
  /\ (vpn_keys_seq k <= vpn_keys_seq (run_key_call c k))%N.
Proof.
  intros Hwf. destruct c; cbn [run_key_call].
  - unfold add_new_key.
    destruct (existsb _ (vpn_keys k)) eqn:E; cbn [fst]; [split; [exact Hwf|lia]|].
    destruct (new_key_id_fresh k) as [Hseq Hids].
    destruct Hwf as (He & Hi & Hs).
    split; [|cbn [vpn_keys_seq]; lia].
    unfold keys_wf. cbn [vpn_keys vpn_keys_seq].
    rewrite !map_app. cbn [map key_email key_id].
    split; [|split].
    + apply NoDup_app. split; [exact He|]. split; [|apply NoDup_singleton].
      intros x Hx Hx'. apply list_elem_of_In in Hx.
      apply list_elem_of_singleton in Hx'. subst x.
      apply in_map_iff in Hx as (r & Hr & Hin).
      assert (F : existsb (fun r => String.eqb (key_email r) email)
                    (vpn_keys k) = true)
        by (apply key_email_present; eauto).
      congruence.
    + apply NoDup_app. split; [exact Hi|]. split; [|apply NoDup_singleton].
      intros x Hx Hx'. apply list_elem_of_In in Hx.
      apply list_elem_of_singleton in Hx'. subst x.
      apply in_map_iff in Hx as (r & Hr & Hin).
      pose proof (Hids r Hin). lia.
    + apply Forall_app. split.
      * rewrite Forall_forall. intros r Hin. apply list_elem_of_In in Hin.
        pose proof (Hids r Hin). lia.
      * repeat constructor. cbn [key_id]. lia.
  - unfold delete_key_by_email.
    split; [now apply delete_keys_wf | cbn; lia].
  - unfold delete_key_by_id.
    split; [now apply delete_keys_wf | cbn; lia].
  - unfold delete_user_keys.
    split; [now apply delete_keys_wf | cbn; lia].
  - unfold update_key_info. split; [|cbn; lia].
    apply update_rows_wf; [| |exact Hwf];
      intros r; now destruct (key_id r =? id)%Z.
  - unfold update_key_email.
    destruct (existsb _ (vpn_keys k)); cbn [fst]; [|split; [exact Hwf | lia]].
    destruct (existsb (fun r => String.eqb (key_email r) new_email
                                && negb (key_id r =? id)%Z) (vpn_keys k))
      eqn:E; cbn [fst]; [split; [exact Hwf | lia]|].
    split; [|cbn; lia].
    destruct Hwf as (He & Hi & Hs). unfold keys_wf.
    cbn [vpn_keys vpn_keys_seq]. split; [|split].
    + apply rename_email_nodup; [exact Hi | exact He|].
      intros r Hin Hr.
      destruct (key_id r =? id)%Z eqn:Er; [now apply Z.eqb_eq|].
      exfalso.
      assert (F : existsb (fun r => String.eqb (key_email r) new_email
                                    && negb (key_id r =? id)%Z)
                    (vpn_keys k) = true).
      { apply existsb_exists. exists r. split; [exact Hin|].
        rewrite Hr, String.eqb_refl, Er. reflexivity. }
      congruence.
    + rewrite map_map.
      rewrite (map_ext _ key_id); [exact Hi|].
      intros r. now destruct (key_id r =? id)%Z.
    + rewrite Forall_forall in *. intros r Hr.
      apply list_elem_of_In, in_map_iff in Hr as (r0 & <- & Hin).
      apply list_elem_of_In in Hin. specialize (Hs r0 Hin).
      now destruct (key_id r0 =? id)%Z.
  - unfold update_key_host. cbn [fst]. split; [|cbn; lia].
    apply update_rows_wf; [| |exact Hwf];
      intros r; now destruct (key_id r =? id)%Z.
  - unfold update_key_host_and_info. split; [|cbn; lia].
    apply update_rows_wf; [| |exact Hwf];
      intros r; now destruct (key_id r =? id)%Z.
  - unfold update_key_status_from_server.
    destruct xui_client_data as [[client_id expiry_time]|].
    + split; [|cbn; lia].
      apply update_rows_wf; [| |exact Hwf];
        intros r; now destruct (String.eqb (key_email r) email).
    + split; [now apply delete_keys_wf | cbn; lia].
Qed.

Lemma run_key_calls_wf (cs : list key_call) (k : keys_table) :
  keys_wf k ->
  keys_wf (run_key_calls cs k)
  /\ (vpn_keys_seq k <= vpn_keys_seq (run_key_calls cs k))%N.
Proof.
  revert k. induction cs as [|c cs IH]; intros k Hwf;
    [cbn; split; [exact Hwf | lia]|].
  unfold run_key_calls. cbn [fold_left].
  destruct (run_key_call_wf c k Hwf) as [Hwf' Hseq].
  destruct (IH _ Hwf') as [Hwf'' Hseq']. split; [exact Hwf''|].
  unfold run_key_calls in Hseq'. lia.
Qed.

(** X23. The schema constraints of [vpn_keys] hold, and the id counter never
    goes down, along every sequence of the calls of [key_call]. *)
Theorem keys_wf_invariant (cs : list key_call) (k : keys_table) :
  keys_wf k ->
  keys_wf (run_key_calls cs k)
  /\ (vpn_keys_seq k <= vpn_keys_seq (run_key_calls cs k))%N.
Proof. apply run_key_calls_wf. Qed.

(** X24. A key id is never given twice: whatever calls come in between,
    deletions included, the id [add_new_key] returns is above the id of
    every key the table held before. *)
Theorem key_ids_are_never_reused
    (cs : list key_call) (k : keys_table) (r : key_row)
    (now uid : Z) (host : list Z) (uuid email : string) (ms id : Z) :
  keys_wf k ->
  In r (vpn_keys k) ->
  snd (add_new_key now uid host uuid email ms (run_key_calls cs k)) = Some id ->
  (key_id r < id)%Z.
Proof.
  intros Hwf Hin Hadd.
  destruct (run_key_calls_wf cs k Hwf) as [_ Hseq].
  destruct Hwf as (_ & _ & Hs). rewrite Forall_forall in Hs.
  apply list_elem_of_In in Hin. specialize (Hs r Hin). cbn beta in Hs.
  unfold add_new_key in Hadd.
  destruct (existsb _ (vpn_keys (run_key_calls cs k))); [discriminate|].
  cbn [snd] in Hadd. injection Hadd as <-.
  destruct (new_key_id_fresh (run_key_calls cs k)) as [Hnew _]. lia.
Qed.

Lemma sample_keys_wf : keys_wf sample_keys.
Proof.
  repeat split; repeat constructor; cbn; try lia;
    intros F; apply list_elem_of_In in F;
    repeat (destruct F as [F|F]; [discriminate|]); destruct F.
Qed.

Lemma keys_wf_invariant_witness :
  keys_wf
    (run_key_calls
       [KeyDeleteKeyById 4; KeyAddNewKey 7 1 [100; 101]%Z "u9" "c@x" 9000;
        KeyUpdateKeyEmail 1 "b@x"] sample_keys).
Proof.
  apply keys_wf_invariant. apply sample_keys_wf.
Defined.

Lemma key_ids_are_never_reused_witness :
  snd (add_new_key 7 1 [100; 101]%Z "u9" "c@x" 9000
         (run_key_calls [KeyDeleteKeyById 4] sample_keys)) = Some 5%Z
  /\ (key_id (mk_key 4 1 [110; 108]%Z "u3" "c@x" (Some 100%Z) 0) < 5)%Z.
Proof.
  split; [reflexivity|].
  apply (key_ids_are_never_reused [KeyDeleteKeyById 4] sample_keys
           (mk_key 4 1 [110; 108]%Z "u3" "c@x" (Some 100%Z) 0)
           7 1 [100; 101]%Z "u9" "c@x" 9000 5).
  - apply sample_keys_wf.
  - right; right; left; reflexivity.
  - reflexivity.
Defined.

(** ** Settings *)

Lemma default_settings_keep (defaults : list (string * option string)) :
  forall (s : gmap string (option string)) (key : string),
    is_Some (s !! key) ->
    insert_default_settings defaults s !! key = s !! key.
Proof.
  unfold insert_default_settings.
  induction defaults as [|[k v] l IH]; intros s key Hs; [reflexivity|].
  cbn [fold_left fst snd]. unfold insert_or_ignore_setting at 2.
  destruct (s !! k) eqn:E; [now apply IH|].
  assert (Hne : k <> key) by (intros ->; rewrite E in Hs; now destruct Hs).
  rewrite IH by (now rewrite lookup_insert_ne).
  now rewrite lookup_insert_ne.
Qed.

Lemma default_settings_cover (defaults : list (string * option string)) :
  forall (s : gmap string (option string)) (kv : string * option string),
    In kv defaults ->
    is_Some (insert_default_settings defaults s !! fst kv).
Proof.
  unfold insert_default_settings.
  induction defaults as [|[k v] l IH]; intros s kv Hin; [destruct Hin|].
  cbn [fold_left fst snd]. destruct Hin as [<-|Hin]; [|now apply IH].
  cbn [fst].
  assert (Hk : is_Some (insert_or_ignore_setting k v s !! k)).
  { unfold insert_or_ignore_setting. destruct (s !! k) eqn:E.
    - rewrite E. eauto.
    - rewrite lookup_insert_eq. eauto. }
  pose proof (default_settings_keep l _ k Hk) as H.
  unfold insert_default_settings in H. now rewrite H.
Qed.

Lemma default_settings_noop (defaults : list (string * option string)) :
  forall s : gmap string (option string),
    (forall kv, In kv defaults -> is_Some (s !! fst kv)) ->
    insert_default_settings defaults s = s.
Proof.
  unfold insert_default_settings.
  induction defaults as [|[k v] l IH]; intros s H; [reflexivity|].
  cbn [fold_left fst snd]. unfold insert_or_ignore_setting.
  destruct (H (k, v) (or_introl eq_refl)) as [x E]. cbn [fst] in E.
  rewrite E. apply IH. intros kv Hkv. apply H. now right.
Qed.

(** X25. The defaults that [initialize_db] inserts never replace a stored
    setting: a value written by [update_setting] is the one [get_setting]
    returns after any defaults are inserted, and inserting the same
    defaults again changes nothing. *)
Theorem default_settings_never_overwrite
    (defaults : list (string * option string))
    (s : gmap string (option string)) (key value : string) :
  get_setting key
    (insert_default_settings defaults (update_setting key value s))
  = Some value
  /\ insert_default_settings defaults (insert_default_settings defaults s)
     = insert_default_settings defaults s.
Proof.
  split.
  - unfold get_setting, update_setting.
    rewrite default_settings_keep by (rewrite lookup_insert_eq; eauto).
    now rewrite lookup_insert_eq.
  - apply default_settings_noop. intros kv Hkv.
    now apply default_settings_cover.
Qed.

(** ** Host names *)

Lemma str_remove_sublist (ch : Z) (s : list Z) : sublist (str_remove ch s) s.
Proof.
  unfold str_remove. induction s as [|c s IH]; cbn [List.filter].
  - constructor.
  - destruct (negb (c =? ch)%Z); now constructor.
Qed.

Lemma str_lstrip_sublist (s : list Z) : sublist (str_lstrip s) s.
Proof.
  induction s as [|c s IH]; cbn [str_lstrip]; [constructor|].
  destruct (unicode_isspace c); [now constructor | reflexivity].
Qed.

Lemma str_rstrip_sublist (s : list Z) : sublist (str_rstrip s) s.
Proof.
  induction s as [|c s IH]; cbn [str_rstrip]; [constructor|].
  destruct (str_rstrip s) as [|r rs].
  - destruct (unicode_isspace c); [now constructor|].
    constructor. exact IH.
  - now constructor.
Qed.

Lemma str_remove_notin (ch c : Z) (s : list Z) :
  In c (str_remove ch s) -> c <> ch /\ In c s.
Proof.
  unfold str_remove. intros H. apply filter_In in H as [H1 H2].
  apply negb_true_iff, Z.eqb_neq in H2. auto.
Qed.

(** X26. The normalised host name is the given name with characters left
    out, none put in or moved, and none of the five invisible characters
    is left in it. *)
Theorem normalize_host_name_only_removes (name : option (list Z)) :
  sublist (normalize_host_name name)
    (match name with Some n => n | None => [] end)
  /\ forall c, In c invisible_chars -> ~ In c (normalize_host_name name).
Proof.
  unfold normalize_host_name, invisible_chars. cbn [fold_left].
  set (s := match name with Some n => n | None => [] end).
  split.
  - repeat (etransitivity; [apply str_remove_sublist|]).
    unfold str_strip. etransitivity; [apply str_rstrip_sublist|].
    apply str_lstrip_sublist.
  - intros c Hc Hin.
    apply str_remove_notin in Hin as [H5 Hin].
    apply str_remove_notin in Hin as [H4 Hin].
    apply str_remove_notin in Hin as [H3 Hin].
    apply str_remove_notin in Hin as [H2 Hin].
    apply str_remove_notin in Hin as [H1 Hin].
    cbn in Hc. intuition congruence.
Qed.

Lemma normalize_host_name_only_removes_witness :
  ~ In 8203%Z (normalize_host_name (Some [100; 8203; 101]%Z)).
Proof.
  destruct (normalize_host_name_only_removes (Some [100; 8203; 101]%Z))
    as [_ H].
  apply H. right; left; reflexivity.
Defined.

Lemma str_remove_absent (ch : Z) (s : list Z) :
  ~ In ch s -> str_remove ch s = s.
Proof.
  intros H. unfold str_remove. apply forallb_filter_id, forallb_forall.
  intros c Hc. apply negb_true_iff, Z.eqb_neq. congruence.
Qed.

Lemma str_lstrip_head (s : list Z) :
  match str_lstrip s with
  | [] => True
  | c :: _ => unicode_isspace c = false
  end.
Proof.
  induction s as [|c s IH]; cbn [str_lstrip]; [exact I|].
  destruct (unicode_isspace c) eqn:E; [exact IH | exact E].
Qed.

Lemma str_rstrip_ends (s : list Z) :
  (forall c, last (str_rstrip s) = Some c -> unicode_isspace c = false)
  /\ (forall c r, s = c :: r -> unicode_isspace c = false ->
                  exists r', str_rstrip s = c :: r').
Proof.
  split.
  - induction s as [|c s IH]; cbn [str_rstrip]; [discriminate|].
    destruct (str_rstrip s) as [|r rs] eqn:E.
    + destruct (unicode_isspace c) eqn:Ec; [discriminate|].
      intros x Hx. cbn in Hx. now injection Hx as <-.
    + intros x Hx. apply IH. exact Hx.
  - intros c r -> Hc. cbn [str_rstrip].
    destruct (str_rstrip r); rewrite ?Hc; eauto.
Qed.

(** X27. On a name that holds none of the five characters the result is the
    stripped name, and it neither starts nor ends with white space. *)
Theorem normalize_host_name_of_clean_name (n : list Z) :
  (forall c, In c invisible_chars -> ~ In c n) ->
  normalize_host_name (Some n) = str_strip n
  /\ (forall c, head (normalize_host_name (Some n)) = Some c ->
                unicode_isspace c = false)
  /\ (forall c, last (normalize_host_name (Some n)) = Some c ->
                unicode_isspace c = false).
Proof.
  intros Hclean.
  assert (Hsub : sublist (str_strip n) n).
  { unfold str_strip. etransitivity; [apply str_rstrip_sublist|].
    apply str_lstrip_sublist. }
  assert (E : normalize_host_name (Some n) = str_strip n).
  { unfold normalize_host_name, invisible_chars. cbn [fold_left].
    assert (Hno : forall ch, In ch invisible_chars ->
                             ~ In ch (str_strip n)).
    { intros ch Hch Hin. apply (Hclean ch Hch).
      apply list_elem_of_In. apply list_elem_of_In in Hin.
      exact (elem_of_sublist _ _ _ Hin Hsub). }
    rewrite (str_remove_absent 160) by (apply Hno; cbn; auto 10).
    rewrite (str_remove_absent 8203) by (apply Hno; cbn; auto 10).
    rewrite (str_remove_absent 8204) by (apply Hno; cbn; auto 10).
    rewrite (str_remove_absent 8205) by (apply Hno; cbn; auto 10).
    now rewrite (str_remove_absent 65279) by (apply Hno; cbn; auto 10). }
  rewrite E. split; [reflexivity|]. split.
  - unfold str_strip. intros c Hc.
    pose proof (str_lstrip_head n) as Hh.
    destruct (str_lstrip n) as [|x r] eqn:El; [discriminate|].
    destruct (proj2 (str_rstrip_ends (x :: r)) x r eq_refl Hh) as [r' Er].
    rewrite Er in Hc. cbn in Hc. now injection Hc as <-.
  - unfold str_strip. apply str_rstrip_ends.
Qed.

Lemma normalize_host_name_of_clean_name_witness :
  normalize_host_name (Some [32; 100; 101; 32; 49; 10]%Z)
  = [100; 101; 32; 49]%Z.
Proof.
  destruct (normalize_host_name_of_clean_name [32; 100; 101; 32; 49; 10]%Z)
    as [-> _]; [|reflexivity].
  intros c Hc Hin. cbn in Hc, Hin. intuition congruence.
Defined.
